(** * WhisperFusion GUI: the transcription dashboard component

    A shallow embedding of [GUI/TranscriptionSystem.tsx] and of the stub
    route handlers under [GUI/app/api], followed by the properties of the
    connection manager, the message dispatcher, the capture controller and
    the playback path.

    Rendering (the JSX, the badge and colour helpers, the scroll effect) is
    left out; everything that touches a socket, a timer, the capture device,
    the audio element or the transcript log is embedded.

    The component is a React function component.  Three facts about React
    shape the embedding:

    - every render runs the component body again, so every function defined
      in the body ([connectWebSocket], [handleWebSocketClose], ...) is a
      closure over the values the [useState] cells had in that render.  The
      embedding passes that snapshot explicitly as the first argument [snap];
    - a [useRef] cell is one mutable object shared by all renders, so refs
      live in the world and are read when the code runs;
    - a state setter queues its update; queued updates are applied in order
      before the next render.  The setters used here are either constant
      ([setConnectionStatus('polling')]) or functional
      ([setTranscripts(prev => ...)]) and the code never reads a cell back
      through anything but a snapshot, so applying each update at once gives
      the same committed state. *)

From Stdlib Require Import List String Ascii ZArith Bool Arith Lia.
From Stdlib Require Import DecimalString.
From Stdlib Require DecimalNat.
Import ListNotations.
Local Open Scope string_scope.
Local Open Scope list_scope.

Set Implicit Arguments.
Set Warnings "-register-all".

(** ** JavaScript values that reach the component *)

(** What [JSON.parse] can return.  A number keeps its literal as
    [mantissa * 10 ^ exponent]; an object keeps its members in source order
    (a later duplicate key wins, see [own_property]). *)
Inductive JSON : Type :=
| JNull
| JBool (b : bool)
| JNumber (mantissa exponent : Z)
| JString (s : string)
| JArray (elements : list JSON)
| JObject (members : list (string * JSON)).

(** A JavaScript value read from parsed data: [undefined] for a missing
    property, a JSON value otherwise. *)
Inductive Value : Type :=
| undefined
| val (j : JSON).

(** The double nearest to [m * 10 ^ e] is zero iff [m] is zero or the
    magnitude is at most [2 ^ -1075], half the least subnormal (a tie rounds
    to the even neighbour, which is zero). *)
Definition number_is_zero (m e : Z) : bool :=
  if (m =? 0)%Z then true
  else if (0 <=? e)%Z then false
  else (Z.abs m * 2 ^ 1075 <=? 10 ^ (- e))%Z.

(** ToBoolean, as used by [if (x)], [x || y] and [x ? a : b]. *)
Definition truthy (v : Value) : bool :=
  match v with
  | undefined => false
  | val JNull => false
  | val (JBool b) => b
  | val (JNumber m e) => negb (number_is_zero m e)
  | val (JString s) => negb (s =? EmptyString)
  | val (JArray _) => true
  | val (JObject _) => true
  end.

(** The member of an object created by [JSON.parse]: the last binding of
    the key. *)
Fixpoint own_property (k : string) (members : list (string * JSON)) : Value :=
  match members with
  | [] => undefined
  | (k', v) :: rest =>
      match own_property k rest with
      | undefined => if k' =? k then val v else undefined
      | found => found
      end
  end.

(** ** Data model of the component *)

Inductive TranscriptType : Type := unrevised | revised | voice.

Inductive ConnectionStatus : Type := connected | connecting | disconnected | polling.

Definition ConnectionStatus_eqb (a b : ConnectionStatus) : bool :=
  match a, b with
  | connected, connected | connecting, connecting
  | disconnected, disconnected | polling, polling => true
  | _, _ => false
  end.

(** [interface Transcript].  The declared type of [content] is [string];
    at run time it is whatever the parsed message held ([seg.text] may be
    missing), hence [Value]. *)
Record Transcript : Type := mkTranscript {
  type : TranscriptType;
  content : Value;
  timestamp : Z
}.

(** A [MediaStream] handle: the index of the capture in the browser's table. *)
Definition MediaStream : Type := nat.

(** The [useState] cells, with the initial values of the source. *)
Record State : Type := mkState {
  inputType : string;
  isRecording : bool;
  transcripts : list Transcript;
  streamUrl : string;
  connectionStatus : ConnectionStatus;
  audioStream : option MediaStream;
  isSecure : bool
}.

Definition initialState : State :=
  {| inputType := "microphone";
     isRecording := false;
     transcripts := [];
     streamUrl := EmptyString;
     connectionStatus := disconnected;
     audioStream := None;
     isSecure := false |}.

(** ** The browser around the component *)

Inductive ReadyState : Type := CONNECTING | OPEN | CLOSING | CLOSED.

Definition ReadyState_eqb (a b : ReadyState) : bool :=
  match a, b with
  | CONNECTING, CONNECTING | OPEN, OPEN | CLOSING, CLOSING | CLOSED, CLOSED => true
  | _, _ => false
  end.

(** The functions the component installs as socket handlers, each with
    the render snapshot it closes over: the arrow function assigned to
    [onopen] and the four named handlers. *)
Inductive Handler : Type :=
| OnOpen (snap : State)
| HandleTranscriptionMessage (snap : State)
| HandleAudioMessage (snap : State)
| HandleWebSocketError (snap : State)
| HandleWebSocketClose (snap : State).

(** A [WebSocket] object with its four handler slots. *)
Record WebSocket : Type := mkWebSocket {
  url : string;
  readyState : ReadyState;
  onopen : option Handler;
  onmessage : option Handler;
  onerror : option Handler;
  onclose : option Handler
}.

Definition Blob : Type := list Byte.byte.

(** [event.data] of a [MessageEvent]. *)
Inductive MessageData : Type :=
| TextData (s : string)
| BlobData (b : Blob).

(** What travels out on a socket: a control string or an audio chunk. *)
Definition Payload : Type := MessageData.

(** The callbacks the component hands to [setTimeout] and [setInterval],
    each with the snapshot it closes over. *)
Inductive Callback : Type :=
| CbConnectWebSocket (snap : State)
| CbPoll (snap : State).

(** A timeout or an interval: [active] until it fires (a timeout) or is
    cleared. *)
Record Timer : Type := mkTimer {
  callback : Callback;
  delay : nat;
  active : bool
}.

Inductive TrackState : Type := Live | Ended.

Record Request : Type := mkRequest {
  method : string;
  path : string;
  body : option string
}.

Record Toast : Type := mkToast {
  title : string;
  description : string;
  variant : option string
}.

(** The [<audio>] element behind [audioRef]. *)
Record HTMLAudioElement : Type := mkAudio {
  src : string
}.

(** The [useRef] cells.  [audioRef] is [None] while no [<audio>] element is
    attached (before the first commit and after unmount). *)
Record Refs : Type := mkRefs {
  audioRef : option HTMLAudioElement;
  socketRef : option nat;
  audioSocketRef : option nat;
  reconnectAttemptsRef : nat
}.

Definition maxReconnectAttempts : nat := 5.

(** Browser objects the component creates or reads.  A socket, timeout,
    interval, capture or recorder is named by its index in its table.
    [clock] gives the successive readings of [Date.now()]. *)
Record Browser : Type := mkBrowser {
  location_protocol : string;
  location_host : string;
  sockets : list WebSocket;
  timeouts : list Timer;
  intervals : list Timer;
  streams : list TrackState;
  recorders : list MediaStream;
  objectURLs : list Blob;
  revoked : list string;
  clock : nat -> Z;
  clockReads : nat
}.

(** One message leaving the page: a frame sent on a socket, or an HTTP
    request. *)
Inductive Outbound : Type :=
| SocketSend (socket : nat) (data : Payload)
| HttpRequest (req : Request).

(** What the component emitted: the outbound messages in the order they
    left, the toasts shown and the console lines. *)
Record Output : Type := mkOutput {
  network : list Outbound;
  toasts : list Toast;
  console : list string
}.

(** Where the component is in its life: before the first commit, mounted
    (with the snapshot of the render whose mount effect ran, which is the
    snapshot its cleanup closes over), or after its cleanup ran. *)
Inductive Lifecycle : Type :=
| Initial
| Mounted (effect_snap : State)
| Unmounted.

Record World : Type := mkWorld {
  lifecycle : Lifecycle;
  state : State;
  refs : Refs;
  browser : Browser;
  output : Output
}.

(** ** Field updates *)

Definition with_lifecycle (v : Lifecycle) (w : World) : World :=
  {| lifecycle := v; state := state w; refs := refs w; browser := browser w;
     output := output w |}.

Definition upd_state (f : State -> State) (w : World) : World :=
  {| lifecycle := lifecycle w; state := f (state w); refs := refs w;
     browser := browser w; output := output w |}.

Definition upd_refs (f : Refs -> Refs) (w : World) : World :=
  {| lifecycle := lifecycle w; state := state w; refs := f (refs w);
     browser := browser w; output := output w |}.

Definition upd_browser (f : Browser -> Browser) (w : World) : World :=
  {| lifecycle := lifecycle w; state := state w; refs := refs w;
     browser := f (browser w); output := output w |}.

Definition upd_output (f : Output -> Output) (w : World) : World :=
  {| lifecycle := lifecycle w; state := state w; refs := refs w;
     browser := browser w; output := f (output w) |}.

Definition with_inputType (v : string) (s : State) : State :=
  {| inputType := v; isRecording := isRecording s; transcripts := transcripts s;
     streamUrl := streamUrl s; connectionStatus := connectionStatus s;
     audioStream := audioStream s; isSecure := isSecure s |}.

Definition with_isRecording (v : bool) (s : State) : State :=
  {| inputType := inputType s; isRecording := v; transcripts := transcripts s;
     streamUrl := streamUrl s; connectionStatus := connectionStatus s;
     audioStream := audioStream s; isSecure := isSecure s |}.

Definition with_transcripts (v : list Transcript) (s : State) : State :=
  {| inputType := inputType s; isRecording := isRecording s; transcripts := v;
     streamUrl := streamUrl s; connectionStatus := connectionStatus s;
     audioStream := audioStream s; isSecure := isSecure s |}.

Definition with_streamUrl (v : string) (s : State) : State :=
  {| inputType := inputType s; isRecording := isRecording s; transcripts := transcripts s;
     streamUrl := v; connectionStatus := connectionStatus s;
     audioStream := audioStream s; isSecure := isSecure s |}.

Definition with_connectionStatus (v : ConnectionStatus) (s : State) : State :=
  {| inputType := inputType s; isRecording := isRecording s; transcripts := transcripts s;
     streamUrl := streamUrl s; connectionStatus := v;
     audioStream := audioStream s; isSecure := isSecure s |}.

Definition with_audioStream (v : option MediaStream) (s : State) : State :=
  {| inputType := inputType s; isRecording := isRecording s; transcripts := transcripts s;
     streamUrl := streamUrl s; connectionStatus := connectionStatus s;
     audioStream := v; isSecure := isSecure s |}.

Definition with_isSecure (v : bool) (s : State) : State :=
  {| inputType := inputType s; isRecording := isRecording s; transcripts := transcripts s;
     streamUrl := streamUrl s; connectionStatus := connectionStatus s;
     audioStream := audioStream s; isSecure := v |}.

Definition with_audioRef (v : option HTMLAudioElement) (r : Refs) : Refs :=
  {| audioRef := v; socketRef := socketRef r; audioSocketRef := audioSocketRef r;
     reconnectAttemptsRef := reconnectAttemptsRef r |}.

Definition with_socketRef (v : option nat) (r : Refs) : Refs :=
  {| audioRef := audioRef r; socketRef := v; audioSocketRef := audioSocketRef r;
     reconnectAttemptsRef := reconnectAttemptsRef r |}.

Definition with_audioSocketRef (v : option nat) (r : Refs) : Refs :=
  {| audioRef := audioRef r; socketRef := socketRef r; audioSocketRef := v;
     reconnectAttemptsRef := reconnectAttemptsRef r |}.

Definition with_reconnectAttemptsRef (v : nat) (r : Refs) : Refs :=
  {| audioRef := audioRef r; socketRef := socketRef r; audioSocketRef := audioSocketRef r;
     reconnectAttemptsRef := v |}.

Definition with_sockets (v : list WebSocket) (b : Browser) : Browser :=
  {| location_protocol := location_protocol b; location_host := location_host b;
     sockets := v; timeouts := timeouts b; intervals := intervals b;
     streams := streams b; recorders := recorders b; objectURLs := objectURLs b;
     revoked := revoked b; clock := clock b; clockReads := clockReads b |}.

Definition with_timeouts (v : list Timer) (b : Browser) : Browser :=
  {| location_protocol := location_protocol b; location_host := location_host b;
     sockets := sockets b; timeouts := v; intervals := intervals b;
     streams := streams b; recorders := recorders b; objectURLs := objectURLs b;
     revoked := revoked b; clock := clock b; clockReads := clockReads b |}.

Definition with_intervals (v : list Timer) (b : Browser) : Browser :=
  {| location_protocol := location_protocol b; location_host := location_host b;
     sockets := sockets b; timeouts := timeouts b; intervals := v;
     streams := streams b; recorders := recorders b; objectURLs := objectURLs b;
     revoked := revoked b; clock := clock b; clockReads := clockReads b |}.

Definition with_streams (v : list TrackState) (b : Browser) : Browser :=
  {| location_protocol := location_protocol b; location_host := location_host b;
     sockets := sockets b; timeouts := timeouts b; intervals := intervals b;
     streams := v; recorders := recorders b; objectURLs := objectURLs b;
     revoked := revoked b; clock := clock b; clockReads := clockReads b |}.

Definition with_recorders (v : list MediaStream) (b : Browser) : Browser :=
  {| location_protocol := location_protocol b; location_host := location_host b;
     sockets := sockets b; timeouts := timeouts b; intervals := intervals b;
     streams := streams b; recorders := v; objectURLs := objectURLs b;
     revoked := revoked b; clock := clock b; clockReads := clockReads b |}.

Definition with_objectURLs (v : list Blob) (b : Browser) : Browser :=
  {| location_protocol := location_protocol b; location_host := location_host b;
     sockets := sockets b; timeouts := timeouts b; intervals := intervals b;
     streams := streams b; recorders := recorders b; objectURLs := v;
     revoked := revoked b; clock := clock b; clockReads := clockReads b |}.

Definition with_revoked (v : list string) (b : Browser) : Browser :=
  {| location_protocol := location_protocol b; location_host := location_host b;
     sockets := sockets b; timeouts := timeouts b; intervals := intervals b;
     streams := streams b; recorders := recorders b; objectURLs := objectURLs b;
     revoked := v; clock := clock b; clockReads := clockReads b |}.

Definition with_clockReads (v : nat) (b : Browser) : Browser :=
  {| location_protocol := location_protocol b; location_host := location_host b;
     sockets := sockets b; timeouts := timeouts b; intervals := intervals b;
     streams := streams b; recorders := recorders b; objectURLs := objectURLs b;
     revoked := revoked b; clock := clock b; clockReads := v |}.

Definition with_network (v : list Outbound) (o : Output) : Output :=
  {| network := v; toasts := toasts o; console := console o |}.

Definition with_toasts (v : list Toast) (o : Output) : Output :=
  {| network := network o; toasts := v; console := console o |}.

Definition with_console (v : list string) (o : Output) : Output :=
  {| network := network o; toasts := toasts o; console := v |}.

Definition with_readyState (v : ReadyState) (s : WebSocket) : WebSocket :=
  {| url := url s; readyState := v; onopen := onopen s; onmessage := onmessage s;
     onerror := onerror s; onclose := onclose s |}.

Definition with_onopen (h : Handler) (s : WebSocket) : WebSocket :=
  {| url := url s; readyState := readyState s; onopen := Some h;
     onmessage := onmessage s; onerror := onerror s; onclose := onclose s |}.

Definition with_onmessage (h : Handler) (s : WebSocket) : WebSocket :=
  {| url := url s; readyState := readyState s; onopen := onopen s;
     onmessage := Some h; onerror := onerror s; onclose := onclose s |}.

Definition with_onerror (h : Handler) (s : WebSocket) : WebSocket :=
  {| url := url s; readyState := readyState s; onopen := onopen s;
     onmessage := onmessage s; onerror := Some h; onclose := onclose s |}.

Definition with_onclose (h : Handler) (s : WebSocket) : WebSocket :=
  {| url := url s; readyState := readyState s; onopen := onopen s;
     onmessage := onmessage s; onerror := onerror s; onclose := Some h |}.

Definition with_active (v : bool) (t : Timer) : Timer :=
  {| callback := callback t; delay := delay t; active := v |}.

(** Replace the entry at index [i]; an index out of range changes nothing. *)
Fixpoint replace_nth {A : Type} (i : nat) (x : A) (l : list A) : list A :=
  match l, i with
  | [], _ => []
  | _ :: rest, O => x :: rest
  | y :: rest, S j => y :: replace_nth j x rest
  end.

(** ** JSON text

    [JSON.parse] and [JSON.stringify] belong to the JavaScript runtime, so
    the component below takes them as parameters.  This module is a reader
    and a writer for JSON text with which the model runs on concrete
    payloads.  A string of the model is the UTF-8 form of the JavaScript
    string. *)
Module JSONText.

Local Open Scope char_scope.

Definition text : Type := list ascii.

Definition quote : ascii := "034".
Definition backslash : ascii := "092".

Definition is_ws (c : ascii) : bool :=
  match c with
  | " " | "009" | "010" | "013" => true
  | _ => false
  end.

Fixpoint skip_ws (s : text) : text :=
  match s with
  | c :: r => if is_ws c then skip_ws r else s
  | [] => []
  end.

Definition digit_of (c : ascii) : option Z :=
  let n := nat_of_ascii c in
  if (48 <=? n)%nat && (n <=? 57)%nat then Some (Z.of_nat (n - 48)) else None.

Definition hex_of (c : ascii) : option N :=
  let n := N_of_ascii c in
  if (48 <=? n)%N && (n <=? 57)%N then Some (n - 48)%N
  else if (65 <=? n)%N && (n <=? 70)%N then Some (n - 55)%N
  else if (97 <=? n)%N && (n <=? 102)%N then Some (n - 87)%N
  else None.

Definition hex4 (a b c d : ascii) : option N :=
  match hex_of a, hex_of b, hex_of c, hex_of d with
  | Some x, Some y, Some z, Some t => Some (((x * 16 + y) * 16 + z) * 16 + t)%N
  | _, _, _, _ => None
  end.

(** The UTF-8 bytes of a code point. *)
Definition utf8 (c : N) : text :=
  if (c <? 128)%N then [ascii_of_N c]
  else if (c <? 2048)%N then
    [ascii_of_N (192 + c / 64); ascii_of_N (128 + c mod 64)]
  else if (c <? 65536)%N then
    [ascii_of_N (224 + c / 4096); ascii_of_N (128 + (c / 64) mod 64);
     ascii_of_N (128 + c mod 64)]
  else
    [ascii_of_N (240 + c / 262144); ascii_of_N (128 + (c / 4096) mod 64);
     ascii_of_N (128 + (c / 64) mod 64); ascii_of_N (128 + c mod 64)].

Definition is_high_surrogate (c : N) : bool := (55296 <=? c)%N && (c <? 56320)%N.
Definition is_low_surrogate (c : N) : bool := (56320 <=? c)%N && (c <? 57344)%N.

(** The longest run of digits at the head of [s], accumulated onto [acc],
    with the number of digits read. *)
Fixpoint read_digits (s : text) (acc : Z) (n : nat) : Z * nat * text :=
  match s with
  | c :: r =>
      match digit_of c with
      | Some d => read_digits r (10 * acc + d)%Z (S n)
      | None => (acc, n, s)
      end
  | [] => (acc, n, [])
  end.

Definition read_number (s : text) : option (JSON * text) :=
  let '(neg, s1) := match s with "-" :: r => (true, r) | _ => (false, s) end in
  match s1 with
  | [] => None
  | c :: r =>
      match digit_of c with
      | None => None
      | Some d =>
          let '(ip, _, s2) := if (d =? 0)%Z then (0%Z, 1%nat, r) else read_digits s1 0 0 in
          let frac :=
            match s2 with
            | "." :: r2 =>
                let '(v, n, s3) := read_digits r2 ip 0 in
                if (n =? 0)%nat then None else Some (v, n, s3)
            | _ => Some (ip, 0%nat, s2)
            end in
          match frac with
          | None => None
          | Some (m, fd, s3) =>
              let read_exp (r3 : text) :=
                let '(eneg, r4) :=
                  match r3 with
                  | "-" :: r => (true, r)
                  | "+" :: r => (false, r)
                  | _ => (false, r3)
                  end in
                let '(ev, n, s4) := read_digits r4 0 0 in
                if (n =? 0)%nat then None else Some (if eneg then (- ev)%Z else ev, s4) in
              let exp :=
                match s3 with
                | "e" :: r3 => read_exp r3
                | "E" :: r3 => read_exp r3
                | _ => Some (0%Z, s3)
                end in
              match exp with
              | None => None
              | Some (e, s4) =>
                  Some (JNumber (if neg then (- m)%Z else m) (e - Z.of_nat fd), s4)
              end
          end
      end
  end.

(** The rest of a string literal after its opening quote; [acc] holds the
    characters read so far, last first. *)
Fixpoint read_string (s : text) (acc : text) : option (string * text) :=
  match s with
  | [] => None
  | c :: r =>
      if Ascii.eqb c quote then Some (string_of_list_ascii (rev acc), r)
      else if Ascii.eqb c backslash then
        match r with
        | "u" :: a :: b :: c1 :: d :: r' =>
            match hex4 a b c1 d with
            | None => None
            | Some hi =>
                match r' with
                | bs :: "u" :: a2 :: b2 :: c2 :: d2 :: r'' =>
                    match (if Ascii.eqb bs backslash then hex4 a2 b2 c2 d2 else None) with
                    | Some lo =>
                        if is_high_surrogate hi && is_low_surrogate lo
                        then read_string r''
                               (rev (utf8 (65536 + (hi - 55296) * 1024 + (lo - 56320))) ++ acc)
                        else read_string r' (rev (utf8 hi) ++ acc)
                    | None => read_string r' (rev (utf8 hi) ++ acc)
                    end
                | _ => read_string r' (rev (utf8 hi) ++ acc)
                end
            end
        | e :: r' =>
            if Ascii.eqb e quote then read_string r' (quote :: acc)
            else if Ascii.eqb e backslash then read_string r' (backslash :: acc)
            else
              match e with
              | "/" => read_string r' ("/" :: acc)
              | "b" => read_string r' ("008" :: acc)
              | "f" => read_string r' ("012" :: acc)
              | "n" => read_string r' ("010" :: acc)
              | "r" => read_string r' ("013" :: acc)
              | "t" => read_string r' ("009" :: acc)
              | _ => None
              end
        | [] => None
        end
      else if (nat_of_ascii c <? 32)%nat then None
      else read_string r (c :: acc)
  end.

Definition expect (word : string) (v : JSON) (s : text) : option (JSON * text) :=
  let w := list_ascii_of_string word in
  if list_eq_dec ascii_dec (firstn (List.length w) s) w
  then Some (v, skipn (List.length w) s) else None.

(** A value at the head of [s] (no leading white space), then the elements
    of an array after its bracket, then the members of an object after its
    brace.  Every call spends one unit of [fuel]. *)
Fixpoint read_value (fuel : nat) (s : text) : option (JSON * text) :=
  match fuel with
  | O => None
  | S fuel =>
      match s with
      | [] => None
      | c :: r =>
          if Ascii.eqb c quote then
            match read_string r [] with
            | Some (str, r') => Some (JString str, r')
            | None => None
            end
          else
            match c with
            | "n" => expect "null" JNull s
            | "t" => expect "true" (JBool true) s
            | "f" => expect "false" (JBool false) s
            | "[" =>
                match skip_ws r with
                | "]" :: r' => Some (JArray [], r')
                | r' =>
                    match read_elements fuel r' with
                    | Some (l, r'') => Some (JArray l, r'')
                    | None => None
                    end
                end
            | "{" =>
                match skip_ws r with
                | "}" :: r' => Some (JObject [], r')
                | r' =>
                    match read_members fuel r' with
                    | Some (l, r'') => Some (JObject l, r'')
                    | None => None
                    end
                end
            | _ => read_number s
            end
      end
  end
with read_elements (fuel : nat) (s : text) : option (list JSON * text) :=
  match fuel with
  | O => None
  | S fuel =>
      match read_value fuel s with
      | None => None
      | Some (v, r) =>
          match skip_ws r with
          | "," :: r' =>
              match read_elements fuel (skip_ws r') with
              | Some (l, r'') => Some (v :: l, r'')
              | None => None
              end
          | "]" :: r' => Some ([v], r')
          | _ => None
          end
      end
  end
with read_members (fuel : nat) (s : text) : option (list (string * JSON) * text) :=
  match fuel with
  | O => None
  | S fuel =>
      match s with
      | c :: r =>
          if Ascii.eqb c quote then
            match read_string r [] with
            | None => None
            | Some (k, r1) =>
                match skip_ws r1 with
                | ":" :: r2 =>
                    match read_value fuel (skip_ws r2) with
                    | None => None
                    | Some (v, r3) =>
                        match skip_ws r3 with
                        | "," :: r4 =>
                            match read_members fuel (skip_ws r4) with
                            | Some (l, r5) => Some ((k, v) :: l, r5)
                            | None => None
                            end
                        | "}" :: r4 => Some ([(k, v)], r4)
                        | _ => None
                        end
                    end
                | _ => None
                end
            end
          else None
      | [] => None
      end
  end.

(** The reader: [None] where [JSON.parse] throws a [SyntaxError]. *)
Definition parse (s : string) : option JSON :=
  let t := list_ascii_of_string s in
  match read_value (2 * List.length t + 2) (skip_ws t) with
  | Some (v, r) => match skip_ws r with [] => Some v | _ => None end
  | None => None
  end.

Definition hex_digit (n : N) : ascii :=
  if (n <? 10)%N then ascii_of_N (48 + n) else ascii_of_N (87 + n).

Definition escape (c : ascii) : text :=
  if Ascii.eqb c quote then [backslash; quote]
  else if Ascii.eqb c backslash then [backslash; backslash]
  else
    match c with
    | "008" => [backslash; "b"]
    | "012" => [backslash; "f"]
    | "010" => [backslash; "n"]
    | "013" => [backslash; "r"]
    | "009" => [backslash; "t"]
    | _ =>
        if (nat_of_ascii c <? 32)%nat
        then [backslash; "u"; "0"; "0";
              hex_digit (N_of_ascii c / 16); hex_digit (N_of_ascii c mod 16)]
        else [c]
    end.

Definition write_string (s : string) : string :=
  string_of_list_ascii (quote :: flat_map escape (list_ascii_of_string s) ++ [quote]).

Definition write_Z (z : Z) : string := NilZero.string_of_int (Z.to_int z).

(** The writer.  A number is written as its mantissa and exponent, which
    denotes the same number; [JSON.stringify] prints the shortest decimal
    of the double instead. *)
Fixpoint stringify (j : JSON) : string :=
  match j with
  | JNull => "null"
  | JBool true => "true"
  | JBool false => "false"
  | JNumber m e =>
      if (e =? 0)%Z then write_Z m else (write_Z m ++ "e" ++ write_Z e)%string
  | JString s => write_string s
  | JArray l =>
      let fix elements (l : list JSON) : string :=
        match l with
        | [] => EmptyString
        | [x] => stringify x
        | x :: r => (stringify x ++ "," ++ elements r)%string
        end in
      ("[" ++ elements l ++ "]")%string
  | JObject kv =>
      let fix members (kv : list (string * JSON)) : string :=
        match kv with
        | [] => EmptyString
        | [(k, x)] => (write_string k ++ ":" ++ stringify x)%string
        | (k, x) :: r => (write_string k ++ ":" ++ stringify x ++ "," ++ members r)%string
        end in
      ("{" ++ members kv ++ "}")%string
  end.

End JSONText.

(** ** Effects: a state and exception monad over the world *)

Inductive Exn : Type :=
| SyntaxError
| TypeError
| DOMException (name : string)
| Error (message : string).

(** The result of running code: a value, or a thrown exception.  The same
    type stands for a settled promise (fulfilled or rejected). *)
Inductive Result (A : Type) : Type :=
| Ok (a : A)
| Throw (e : Exn).

Arguments Ok {A} a.
Arguments Throw {A} e.

Definition M (A : Type) : Type := World -> Result A * World.

Definition ret {A : Type} (a : A) : M A := fun w => (Ok a, w).

Definition throw {A : Type} (e : Exn) : M A := fun w => (Throw e, w).

Definition bind {A B : Type} (m : M A) (k : A -> M B) : M B :=
  fun w =>
    match m w with
    | (Ok a, w') => k a w'
    | (Throw e, w') => (Throw e, w')
    end.

Declare Scope monad_scope.
Delimit Scope monad_scope with monad.
Notation "x <- c1 ;; c2" := (bind c1 (fun x => c2))
  (at level 61, c1 at next level, right associativity) : monad_scope.
Notation "c1 ;; c2" := (bind c1 (fun _ => c2))
  (at level 61, right associativity) : monad_scope.
Local Open Scope monad_scope.

(** [try { body } catch (error) { handler error }]. *)
Definition try_catch {A : Type} (body : M A) (handler : Exn -> M A) : M A :=
  fun w =>
    match body w with
    | (Ok a, w') => (Ok a, w')
    | (Throw e, w') => handler e w'
    end.

(** [try { body } catch (error) { handler error } finally { final }]: the
    final block runs on every path; if it throws, its exception replaces
    the outcome. *)
Definition try_catch_finally {A : Type}
  (body : M A) (handler : Exn -> M A) (final : M unit) : M A :=
  fun w =>
    let (r, w1) := try_catch body handler w in
    match final w1 with
    | (Ok _, w2) => (r, w2)
    | (Throw e, w2) => (Throw e, w2)
    end.

(** [await p] on a promise that settles as [p].  The continuation runs at
    once: events the browser could run while the promise is pending are
    not interleaved. *)
Definition await {A : Type} (p : Result A) : M A := fun w => (p, w).

(** A call of an [async] function whose promise is dropped: the callee runs
    and a rejection does not reach the caller. *)
Definition spawn (m : M unit) : M unit := fun w => (Ok tt, snd (m w)).

(** [array.forEach(f)]. *)
Fixpoint forEach {A : Type} (l : list A) (f : A -> M unit) : M unit :=
  match l with
  | [] => ret tt
  | x :: rest => f x ;; forEach rest f
  end.

(** What an event handler leaves behind when the event loop calls it. *)
Definition exec (m : M unit) (w : World) : World := snd (m w).

(** *** Reads and writes of the world *)

Definition gets {A : Type} (f : World -> A) : M A := fun w => (Ok (f w), w).

Definition modify (f : World -> World) : M unit := fun w => (Ok tt, f w).

(** [data.k] for one of the keys the component reads ([segments],
    [llm_output], [eos], [text]): a [TypeError] on [null] and [undefined],
    the member on an object, [undefined] on any other value (none of these
    keys is a property of arrays, strings, numbers or booleans). *)
Definition get (v : Value) (k : string) : M Value :=
  match v with
  | undefined => throw TypeError
  | val JNull => throw TypeError
  | val (JObject members) => ret (own_property k members)
  | val _ => ret undefined
  end.

(** [v.forEach(f)]: on an array the iteration; any other value has no
    callable [forEach], so the call throws a [TypeError]. *)
Definition js_forEach (v : Value) (f : JSON -> M unit) : M unit :=
  match v with
  | val (JArray l) => forEach l f
  | _ => throw TypeError
  end.

(** [Date.now()]: the next reading of the clock. *)
Definition Date_now : M Z :=
  fun w =>
    (Ok (clock (browser w) (clockReads (browser w))),
     upd_browser (fun b => with_clockReads (S (clockReads b)) b) w).

Definition console_log (line : string) : M unit :=
  modify (upd_output (fun o => with_console (console o ++ [line]) o)).

Definition console_error (line : string) : M unit :=
  modify (upd_output (fun o => with_console (console o ++ [line]) o)).

Definition toast (t : Toast) : M unit :=
  modify (upd_output (fun o => with_toasts (toasts o ++ [t]) o)).

Definition setInputType (v : string) : M unit :=
  modify (upd_state (with_inputType v)).

Definition setIsRecording (v : bool) : M unit :=
  modify (upd_state (with_isRecording v)).

Definition setTranscripts (f : list Transcript -> list Transcript) : M unit :=
  modify (upd_state (fun s => with_transcripts (f (transcripts s)) s)).

Definition setStreamUrl (v : string) : M unit :=
  modify (upd_state (with_streamUrl v)).

Definition setConnectionStatus (v : ConnectionStatus) : M unit :=
  modify (upd_state (with_connectionStatus v)).

Definition setAudioStream (v : option MediaStream) : M unit :=
  modify (upd_state (with_audioStream v)).

Definition setIsSecure (v : bool) : M unit :=
  modify (upd_state (with_isSecure v)).

(** [new WebSocket(url)]: a fresh socket, connecting, without handlers. *)
Definition new_WebSocket (u : string) : M nat :=
  fun w =>
    (Ok (List.length (sockets (browser w))),
     upd_browser (fun b => with_sockets
       (sockets b ++ [{| url := u; readyState := CONNECTING; onopen := None;
                         onmessage := None; onerror := None; onclose := None |}]) b) w).

Definition update_socket (s : nat) (f : WebSocket -> WebSocket) : M unit :=
  modify (upd_browser (fun b =>
    match nth_error (sockets b) s with
    | Some sock => with_sockets (replace_nth s (f sock) (sockets b)) b
    | None => b
    end)).

(** [ref.current?.readyState]. *)
Definition readyState_of (r : option nat) : M (option ReadyState) :=
  gets (fun w =>
    match r with
    | Some s => option_map readyState (nth_error (sockets (browser w)) s)
    | None => None
    end).

(** [socket.send(data)] on an open socket. *)
Definition socket_send (s : nat) (data : Payload) : M unit :=
  modify (upd_output (fun o => with_network (network o ++ [SocketSend s data]) o)).

(** [ref.current?.close()]: starts the closing handshake of a socket that is
    connecting or open; the close event comes later. *)
Definition socket_close (r : option nat) : M unit :=
  match r with
  | None => ret tt
  | Some s =>
      update_socket s (fun sock =>
        match readyState sock with
        | CONNECTING | OPEN => with_readyState CLOSING sock
        | CLOSING | CLOSED => sock
        end)
  end.

Definition setTimeout (cb : Callback) (ms : nat) : M nat :=
  fun w =>
    (Ok (List.length (timeouts (browser w))),
     upd_browser (fun b => with_timeouts
       (timeouts b ++ [{| callback := cb; delay := ms; active := true |}]) b) w).

Definition setInterval (cb : Callback) (ms : nat) : M nat :=
  fun w =>
    (Ok (List.length (intervals (browser w))),
     upd_browser (fun b => with_intervals
       (intervals b ++ [{| callback := cb; delay := ms; active := true |}]) b) w).

Definition clearInterval (i : nat) : M unit :=
  modify (upd_browser (fun b =>
    match nth_error (intervals b) i with
    | Some t => with_intervals (replace_nth i (with_active false t) (intervals b)) b
    | None => b
    end)).

(** [navigator.mediaDevices.getUserMedia({ audio: true })], settled as
    [granted]: a new live capture, or the rejection. *)
Definition getUserMedia (granted : Result unit) : M MediaStream :=
  await granted ;;
  fun w =>
    (Ok (List.length (streams (browser w))),
     upd_browser (fun b => with_streams (streams b ++ [Live]) b) w).

(** [stream.getTracks().forEach(track => track.stop())]. *)
Definition stop_tracks (stream : MediaStream) : M unit :=
  modify (upd_browser (fun b => with_streams (replace_nth stream Ended (streams b)) b)).

(** [new MediaRecorder(stream)] with its [ondataavailable] handler, started. *)
Definition new_MediaRecorder (stream : MediaStream) : M nat :=
  fun w =>
    (Ok (List.length (recorders (browser w))),
     upd_browser (fun b => with_recorders (recorders b ++ [stream]) b) w).

Definition blob_url (n : nat) : string :=
  ("blob:" ++ NilZero.string_of_uint (Nat.to_uint n))%string.

(** [URL.createObjectURL(blob)]: a fresh reference to the blob. *)
Definition createObjectURL (b : Blob) : M string :=
  fun w =>
    (Ok (blob_url (List.length (objectURLs (browser w)))),
     upd_browser (fun br => with_objectURLs (objectURLs br ++ [b]) br) w).

Definition revokeObjectURL (u : string) : M unit :=
  modify (upd_browser (fun b => with_revoked (revoked b ++ [u]) b)).

(** An HTTP response: its status and what [response.json()] settles as. *)
Record Response : Type := mkResponse {
  status : nat;
  json : Result JSON
}.

(** [response.ok]. *)
Definition ok (r : Response) : bool := (200 <=? status r)%nat && (status r <=? 299)%nat.

(** [fetch(...)]: the request goes out, the promise settles as [fetched]. *)
Definition fetch (req : Request) (fetched : Result Response) : M Response :=
  modify (upd_output (fun o => with_network (network o ++ [HttpRequest req]) o)) ;;
  await fetched.

(** [String(event.data)], the argument [JSON.parse] sees. *)
Definition toString (d : MessageData) : string :=
  match d with
  | TextData s => s
  | BlobData _ => "[object Blob]"
  end.

(** ** The component [TranscriptionSystem]

    Each function is the function of the same name in the source.  The
    first argument [snap], where present, is the render snapshot the
    closure was created in; a trailing [Result] argument is the outcome of
    the promise the function awaits. *)
Section TranscriptionSystem.

Variable JSON_parse : string -> option JSON.
Variable JSON_stringify : JSON -> string.

(** [JSON.parse(text)]: the value, or a [SyntaxError]. *)
Definition parse_or_throw (text : string) : M JSON :=
  match JSON_parse text with
  | Some j => ret j
  | None => throw SyntaxError
  end.

Definition stopAudioStream (snap : State) : M unit :=
  match audioStream snap with
  | Some stream =>
      stop_tracks stream ;;
      setAudioStream None
  | None => ret tt
  end.

Definition connectWebSocket (snap : State) : M unit :=
  setConnectionStatus connecting ;;
  let wsProtocol := if isSecure snap then "wss://" else "ws://" in
  host <- gets (fun w => location_host (browser w)) ;;
  let wsUrl := (wsProtocol ++ host ++ "/api/transcription")%string in
  socket <- new_WebSocket wsUrl ;;
  modify (upd_refs (with_socketRef (Some socket))) ;;
  let audioWsUrl := (wsProtocol ++ host ++ "/api/tts")%string in
  audioSocket <- new_WebSocket audioWsUrl ;;
  modify (upd_refs (with_audioSocketRef (Some audioSocket))) ;;
  update_socket socket (with_onopen (OnOpen snap)) ;;
  update_socket socket (with_onmessage (HandleTranscriptionMessage snap)) ;;
  update_socket audioSocket (with_onmessage (HandleAudioMessage snap)) ;;
  update_socket socket (with_onerror (HandleWebSocketError snap)) ;;
  update_socket audioSocket (with_onerror (HandleWebSocketError snap)) ;;
  update_socket socket (with_onclose (HandleWebSocketClose snap)) ;;
  update_socket audioSocket (with_onclose (HandleWebSocketClose snap)).

(** The arrow function assigned to [socketRef.current.onopen]. *)
Definition onopen_handler (snap : State) : M unit :=
  console_log "WebSocket connection established" ;;
  setConnectionStatus connected ;;
  modify (upd_refs (with_reconnectAttemptsRef 0)) ;;
  toast {| title := "Connected";
           description := ("Secure " ++ (if isSecure snap then "(HTTPS)" else "(HTTP)")
                             ++ " connection established")%string;
           variant := None |}.

Definition handleTranscriptionMessage (event_data : MessageData) : M unit :=
  try_catch
    (data <- parse_or_throw (toString event_data) ;;
     timestamp <- Date_now ;;
     segments <- get (val data) "segments" ;;
     (if truthy segments then
        js_forEach segments (fun seg =>
          text <- get (val seg) "text" ;;
          setTranscripts (fun prev =>
            prev ++ [{| type := unrevised; content := text; timestamp := timestamp |}]))
      else ret tt) ;;
     llm_output <- get (val data) "llm_output" ;;
     (if truthy llm_output then
        js_forEach llm_output (fun out =>
          eos <- get (val data) "eos" ;;
          setTranscripts (fun prev =>
            prev ++ [{| type := if truthy eos then voice else revised;
                        content := val out; timestamp := timestamp |}]))
      else ret tt))
    (fun error => console_error "Error parsing transcription message:").

Definition playAudio (u : string) (played : Result unit) : M unit :=
  current <- gets (fun w => audioRef (refs w)) ;;
  match current with
  | Some audio =>
      modify (upd_refs (with_audioRef (Some {| src := u |}))) ;;
      try_catch_finally
        (await played)
        (fun error =>
           console_error "Error playing audio:" ;;
           toast {| title := "Audio Error";
                    description := "Failed to play audio output";
                    variant := Some "destructive" |})
        (revokeObjectURL u)
  | None => ret tt
  end.

Definition handleAudioMessage (event_data : MessageData) (played : Result unit) : M unit :=
  try_catch
    (match event_data with
     | BlobData audioBlob =>
         audioUrl <- createObjectURL audioBlob ;;
         spawn (playAudio audioUrl played)
     | TextData _ => ret tt
     end)
    (fun error => console_error "Error handling audio message:").

Definition handleWebSocketError : M unit :=
  console_error "WebSocket error:" ;;
  setConnectionStatus disconnected ;;
  toast {| title := "Connection Error";
           description := "Connection error. Attempting to reconnect...";
           variant := Some "destructive" |}.

(** The cleanup function [startPolling] returns. *)
Inductive Cleanup : Type := ClearInterval (pollInterval : nat).

Definition startPolling (snap : State) : M Cleanup :=
  setConnectionStatus polling ;;
  pollInterval <- setInterval (CbPoll snap) 1000 ;;
  ret (ClearInterval pollInterval).

Definition handleWebSocketClose (snap : State) : M unit :=
  console_log "WebSocket connection closed:" ;;
  setConnectionStatus disconnected ;;
  attempts <- gets (fun w => reconnectAttemptsRef (refs w)) ;;
  if (attempts <? maxReconnectAttempts)%nat then
    modify (upd_refs (fun r => with_reconnectAttemptsRef (S (reconnectAttemptsRef r)) r)) ;;
    current <- gets (fun w => reconnectAttemptsRef (refs w)) ;;
    console_log ("Attempting to reconnect (" ++ NilZero.string_of_uint (Nat.to_uint current)
                   ++ "/" ++ NilZero.string_of_uint (Nat.to_uint maxReconnectAttempts)
                   ++ ")...")%string ;;
    setTimeout (CbConnectWebSocket snap) 3000 ;;
    ret tt
  else
    console_log "Max reconnect attempts reached. Using fallback polling." ;;
    startPolling snap ;;
    ret tt.

(** The function [startPolling] hands to [setInterval]. *)
Definition poll (snap : State) (fetched : Result Response) : M unit :=
  if negb (ConnectionStatus_eqb (connectionStatus snap) connected) then
    try_catch
      (response <- fetch {| method := "GET"; path := "/api/transcripts"; body := None |}
                         fetched ;;
       data <- await (json response) ;;
       timestamp <- Date_now ;;
       segments <- get (val data) "segments" ;;
       condition <- (if truthy segments then ret segments
                     else get (val data) "llm_output") ;;
       if truthy condition then
         spawn (handleTranscriptionMessage (TextData (JSON_stringify data)))
       else ret tt)
      (fun error =>
         console_error "Error polling transcripts:" ;;
         toast {| title := "Polling Error";
                  description := "Failed to fetch updates";
                  variant := Some "destructive" |})
  else ret tt.

Definition sendMessage (message : string) (fetched : Result Response) : M unit :=
  current <- gets (fun w => socketRef (refs w)) ;;
  rs <- readyState_of current ;;
  match current, rs with
  | Some socket, Some OPEN => socket_send socket (TextData message)
  | _, _ =>
      try_catch
        (response <- fetch {| method := "POST"; path := "/api/send-message";
                              body := Some (JSON_stringify
                                              (JObject [("message", JString message)])) |}
                           fetched ;;
         (if negb (ok response)
          then throw (Error ("HTTP error! status: "
                               ++ NilZero.string_of_uint (Nat.to_uint (status response)))%string)
          else ret tt) ;;
         data <- await (json response) ;;
         console_log "Message sent successfully:")
        (fun error =>
           console_error "Error sending message:" ;;
           toast {| title := "Error";
                    description := "Failed to send message";
                    variant := Some "destructive" |})
  end.

(** The [ondataavailable] handler of the recorder; a chunk is sent only if
    it is not empty and the primary socket is open. *)
Definition ondataavailable (chunk : Blob) : M unit :=
  current <- gets (fun w => socketRef (refs w)) ;;
  rs <- readyState_of current ;;
  match current, rs with
  | Some socket, Some OPEN =>
      if (0 <? List.length chunk)%nat then socket_send socket (BlobData chunk) else ret tt
  | _, _ => ret tt
  end.

Definition startRecording (granted : Result unit) (fetched : Result Response) : M unit :=
  try_catch
    (stream <- getUserMedia granted ;;
     setAudioStream (Some stream) ;;
     setIsRecording true ;;
     spawn (sendMessage "START_RECORDING" fetched) ;;
     mediaRecorder <- new_MediaRecorder stream ;;
     ret tt)
    (fun error =>
       console_error "Error accessing microphone:" ;;
       toast {| title := "Microphone Error";
                description := "Failed to access microphone";
                variant := Some "destructive" |}).

Definition stopRecording (snap : State) (fetched : Result Response) : M unit :=
  stopAudioStream snap ;;
  setIsRecording false ;;
  spawn (sendMessage "STOP_RECORDING" fetched).

Definition handleStreamUrlChange (value : string) : M unit :=
  setStreamUrl value.

Definition handleStartStreaming (snap : State) (fetched : Result Response) : M unit :=
  if streamUrl snap =? EmptyString then
    toast {| title := "Error";
             description := "Please enter a stream URL";
             variant := Some "destructive" |}
  else
    spawn (sendMessage ("START_STREAMING:" ++ streamUrl snap)%string fetched).

(** The body of the mount effect, [useEffect(() => { ... }, [])]. *)
Definition mountEffect (snap : State) : M unit :=
  protocol <- gets (fun w => location_protocol (browser w)) ;;
  setIsSecure (protocol =? "https:") ;;
  connectWebSocket snap.

(** The cleanup function the mount effect returns. *)
Definition mountCleanup (snap : State) : M unit :=
  current <- gets (fun w => socketRef (refs w)) ;;
  socket_close current ;;
  currentAudio <- gets (fun w => audioSocketRef (refs w)) ;;
  socket_close currentAudio ;;
  stopAudioStream snap.

End TranscriptionSystem.

(** ** What the component renders from its state *)

(** The string a status value is: [ConnectionStatus] is a union of string
    literals in the source. *)
Definition status_string (c : ConnectionStatus) : string :=
  match c with
  | connected => "connected"
  | connecting => "connecting"
  | disconnected => "disconnected"
  | polling => "polling"
  end.

(** [s.toUpperCase()] on ASCII text: the letters [a] to [z] move to [A] to
    [Z], every other character stays. *)
Definition upper (c : ascii) : ascii :=
  let n := nat_of_ascii c in
  if (97 <=? n)%nat && (n <=? 122)%nat then ascii_of_nat (n - 32) else c.

Fixpoint toUpperCase (s : string) : string :=
  match s with
  | EmptyString => EmptyString
  | String c rest => String (upper c) (toUpperCase rest)
  end.

(** [s.charAt(0)]: the first character as a string, the empty string on an
    empty string. *)
Definition charAt0 (s : string) : string :=
  match s with
  | EmptyString => EmptyString
  | String c _ => String c EmptyString
  end.

(** [s.slice(1)]. *)
Definition slice1 (s : string) : string :=
  match s with
  | EmptyString => EmptyString
  | String _ rest => rest
  end.

(** The [<Badge>] element: its [variant] attribute and its text. *)
Record Badge : Type := mkBadge {
  badge_variant : string;
  badge_text : string
}.

(** The object [variants] of [getConnectionStatusBadge], looked up by the
    status. *)
Definition variants (c : ConnectionStatus) : string :=
  match c with
  | connected => "success"
  | connecting => "warning"
  | disconnected => "destructive"
  | polling => "secondary"
  end.

(** [getConnectionStatusBadge] of the render with snapshot [snap];
    [{isSecure && " (HTTPS)"}] renders nothing when [isSecure] is false. *)
Definition getConnectionStatusBadge (snap : State) : Badge :=
  {| badge_variant := variants (connectionStatus snap);
     badge_text :=
       (toUpperCase (charAt0 (status_string (connectionStatus snap)))
        ++ slice1 (status_string (connectionStatus snap))
        ++ (if isSecure snap then " (HTTPS)" else EmptyString))%string |}.

(** [getTranscriptColor]; its [default] branch is for no value of the
    type. *)
Definition getTranscriptColor (t : TranscriptType) : string :=
  match t with
  | unrevised => "bg-yellow-100 dark:bg-yellow-900"
  | revised => "bg-green-100 dark:bg-green-900"
  | voice => "bg-blue-100 dark:bg-blue-900"
  end.

(** The [key] attributes of the rows [transcripts.map((transcript, index)
    => ...)] renders, [index] being the index of the first row of [l]: the
    index in decimal, a dash, and the timestamp as [show] prints it. *)
Fixpoint row_keys (show : Z -> string) (index : nat) (l : list Transcript) : list string :=
  match l with
  | [] => []
  | transcript :: rest =>
      (NilZero.string_of_uint (Nat.to_uint index) ++ "-" ++ show (timestamp transcript))%string
      :: row_keys show (S index) rest
  end.

(** ** The stub route handlers *)

(** [GET /api/transcripts] ([app/api/transcripts/route.ts]): the mock list,
    sent as JSON with status 200.  Building the list cannot throw, so the
    handler's [catch] branch (status 500) is never taken. *)
Definition transcripts_route_GET : Response :=
  {| status := 200;
     json := Ok (JArray
       [JObject [("type", JString "unrevised");
                 ("content", JString "This is an unrevised transcript.")];
        JObject [("type", JString "revised");
                 ("content", JString "This is a revised transcript.")];
        JObject [("type", JString "voice");
                 ("content", JString "This is a generated voice output transcript.")]]) |}.

(** [GET /api/transcription]: status 426 with a plain-text body, which
    [response.json()] rejects. *)
Definition transcription_route_GET : Response :=
  {| status := 426; json := Throw SyntaxError |}.

(** What a route handler did: its response and the lines it wrote to the
    server's console. *)
Record Served : Type := mkServed {
  response : Response;
  server_console : list string
}.

(** [POST /api/send-message] (the route file whose name is not known).
    [body] is the text of the request body.  [await request.json()] throws
    when the body is missing or not JSON, and taking [{ message }] out of
    [null] throws as well; every other value yields the acknowledgement.
    The pause of one second is not modelled. *)
Definition send_message_route_POST (JSON_parse : string -> option JSON)
  (body : option string) : Served :=
  let failure :=
    {| response := {| status := 500;
                      json := Ok (JObject [("error", JString "Internal Server Error")]) |};
       server_console := ["Error processing message:"] |} in
  match body with
  | None => failure
  | Some text =>
      match JSON_parse text with
      | None => failure
      | Some JNull => failure
      | Some _ =>
          {| response :=
               {| status := 200;
                  json := Ok (JObject [("success", JBool true);
                                       ("message",
                                        JString "Message received and processed")]) |};
             server_console := ["Received message:"] |}
      end
  end.

(** ** The event loop

    One event is one task of the browser: a lifecycle step of React, an
    event of a socket, a timer firing, a chunk from the recorder, or a user
    action.  A promise awaited inside the task comes with its outcome. *)
Inductive Event : Type :=
| Mount
| Unmount
| SocketOpen (s : nat)
| SocketMessage (s : nat) (data : MessageData) (played : Result unit)
| SocketError (s : nat)
| SocketClose (s : nat)
| TimeoutFires (t : nat)
| IntervalFires (i : nat) (fetched : Result Response)
| DataAvailable (r : nat) (chunk : Blob)
| SelectInput (value : string)
| ClickRecord (granted : Result unit) (fetched : Result Response)
| ChangeStreamUrl (value : string)
| ClickStartStreaming (fetched : Result Response).

Section EventLoop.

Variable JSON_parse : string -> option JSON.
Variable JSON_stringify : JSON -> string.

(** Calling a handler slot of a socket.  Only a message handler reads the
    payload [data]; only the audio handler awaits a playback, which settles
    as [played]. *)
Definition call_handler (h : option Handler) (data : MessageData) (played : Result unit)
  : M unit :=
  match h with
  | Some (OnOpen snap) => onopen_handler snap
  | Some (HandleTranscriptionMessage _) => spawn (handleTranscriptionMessage JSON_parse data)
  | Some (HandleAudioMessage _) => spawn (handleAudioMessage data played)
  | Some (HandleWebSocketError _) => handleWebSocketError
  | Some (HandleWebSocketClose snap) => handleWebSocketClose snap
  | None => ret tt
  end.

(** Calling a timer callback.  Only the polling callback fetches; its
    request settles as [fetched]. *)
Definition call_callback (cb : Callback) (fetched : Result Response) : M unit :=
  match cb with
  | CbConnectWebSocket snap => connectWebSocket snap
  | CbPoll snap => poll JSON_parse JSON_stringify snap fetched
  end.

Definition is_mounted (w : World) : bool :=
  match lifecycle w with
  | Mounted _ => true
  | _ => false
  end.

Definition stream_input (w : World) : bool :=
  (inputType (state w) =? "rtsp") || (inputType (state w) =? "hls").

(** One task.  An event that cannot occur in [w] leaves [w] as it is: a
    socket opens once, while connecting; it delivers messages only while
    open; it closes once, and an error comes before the close; a timeout
    fires once; an interval ticks until it is cleared; a recorder delivers
    chunks while its capture is live; a control reacts while it is
    rendered.

    The mount effect runs once, with the closures of the first render: its
    snapshot is the state at the mount, and the cleanup it returns is kept
    with that snapshot.  React attaches [audioRef] before the effect runs and
    detaches it before the cleanup runs.  The handlers of user actions are
    those of the latest render, whose snapshot is the committed state. *)
Definition step (w : World) (e : Event) : World :=
  match e with
  | Mount =>
      match lifecycle w with
      | Initial =>
          exec (modify (upd_refs (with_audioRef (Some {| src := EmptyString |}))) ;;
                mountEffect (state w))
               (with_lifecycle (Mounted (state w)) w)
      | _ => w
      end
  | Unmount =>
      match lifecycle w with
      | Mounted snap =>
          exec (modify (upd_refs (with_audioRef None)) ;;
                mountCleanup snap)
               (with_lifecycle Unmounted w)
      | _ => w
      end
  | SocketOpen s =>
      match nth_error (sockets (browser w)) s with
      | Some sock =>
          match readyState sock with
          | CONNECTING =>
              exec (update_socket s (with_readyState OPEN) ;;
                    call_handler (onopen sock) (TextData EmptyString) (Ok tt)) w
          | _ => w
          end
      | None => w
      end
  | SocketMessage s data played =>
      match nth_error (sockets (browser w)) s with
      | Some sock =>
          match readyState sock with
          | OPEN => exec (call_handler (onmessage sock) data played) w
          | _ => w
          end
      | None => w
      end
  | SocketError s =>
      match nth_error (sockets (browser w)) s with
      | Some sock =>
          match readyState sock with
          | CLOSED => w
          | _ => exec (call_handler (onerror sock) (TextData EmptyString) (Ok tt)) w
          end
      | None => w
      end
  | SocketClose s =>
      match nth_error (sockets (browser w)) s with
      | Some sock =>
          match readyState sock with
          | CLOSED => w
          | _ =>
              exec (update_socket s (with_readyState CLOSED) ;;
                    call_handler (onclose sock) (TextData EmptyString) (Ok tt)) w
          end
      | None => w
      end
  | TimeoutFires t =>
      match nth_error (timeouts (browser w)) t with
      | Some timer =>
          if active timer then
            exec (modify (upd_browser (fun b =>
                    with_timeouts (replace_nth t (with_active false timer) (timeouts b)) b)) ;;
                  call_callback (callback timer) (Throw (Error EmptyString))) w
          else w
      | None => w
      end
  | IntervalFires i fetched =>
      match nth_error (intervals (browser w)) i with
      | Some timer =>
          if active timer then exec (call_callback (callback timer) fetched) w else w
      | None => w
      end
  | DataAvailable r chunk =>
      match nth_error (recorders (browser w)) r with
      | Some stream =>
          match nth_error (streams (browser w)) stream with
          | Some Live => exec (ondataavailable chunk) w
          | _ => w
          end
      | None => w
      end
  | SelectInput value =>
      if is_mounted w then exec (setInputType value) w else w
  | ClickRecord granted fetched =>
      if is_mounted w && (inputType (state w) =? "microphone") then
        if isRecording (state w)
        then exec (stopRecording JSON_stringify (state w) fetched) w
        else exec (startRecording JSON_stringify granted fetched) w
      else w
  | ChangeStreamUrl value =>
      if is_mounted w && stream_input w then exec (handleStreamUrlChange value) w else w
  | ClickStartStreaming fetched =>
      if is_mounted w && stream_input w
      then exec (handleStartStreaming JSON_stringify (state w) fetched) w
      else w
  end.

Definition run (trace : list Event) (w : World) : World := fold_left step trace w.

End EventLoop.

(** The page before the first render, loaded from [protocol]//[host]. *)
Definition initialWorld (protocol host : string) (clk : nat -> Z) : World :=
  {| lifecycle := Initial;
     state := initialState;
     refs := {| audioRef := None; socketRef := None; audioSocketRef := None;
                reconnectAttemptsRef := 0 |};
     browser := {| location_protocol := protocol; location_host := host;
                   sockets := []; timeouts := []; intervals := []; streams := [];
                   recorders := []; objectURLs := []; revoked := [];
                   clock := clk; clockReads := 0 |};
     output := {| network := []; toasts := []; console := [] |} |}.

(** ** Vocabulary of the properties *)

(** [j.k] as a pure function: the member of an object, [undefined] on any
    other value. *)
Definition property (j : JSON) (k : string) : Value :=
  match j with
  | JObject members => own_property k members
  | _ => undefined
  end.


Definition is_null (j : JSON) : bool :=
  match j with
  | JNull => true
  | _ => false
  end.





(** The timers the close handler creates. *)
Definition reconnect_timer (snap : State) : Timer :=
  {| callback := CbConnectWebSocket snap; delay := 3000; active := true |}.

Definition poll_timer (snap : State) : Timer :=
  {| callback := CbPoll snap; delay := 1000; active := true |}.

(** The request of one polling tick. *)
Definition poll_request : Outbound :=
  HttpRequest {| method := "GET"; path := "/api/transcripts"; body := None |}.

(** [frame] carries the control message [message]: as a text frame on a
    socket, or as the body of a POST to the message endpoint. *)
Definition carries (JSON_stringify : JSON -> string) (frame : Outbound) (message : string)
  : Prop :=
  (exists socket, frame = SocketSend socket (TextData message))
  \/ frame = HttpRequest {| method := "POST"; path := "/api/send-message";
                            body := Some (JSON_stringify
                                            (JObject [("message", JString message)])) |}.

(** The snapshot a closure was created in. *)
Definition handler_snap (h : Handler) : State :=
  match h with
  | OnOpen snap | HandleTranscriptionMessage snap | HandleAudioMessage snap
  | HandleWebSocketError snap | HandleWebSocketClose snap => snap
  end.

Definition callback_snap (cb : Callback) : State :=
  match cb with
  | CbConnectWebSocket snap | CbPoll snap => snap
  end.

Definition slot_first_render (h : option Handler) : Prop :=
  match h with
  | Some h => handler_snap h = initialState
  | None => True
  end.

(** The two endpoints over the unencrypted scheme. *)
Definition ws_endpoint (host u : string) : Prop :=
  u = ("ws://" ++ host ++ "/api/transcription")%string
  \/ u = ("ws://" ++ host ++ "/api/tts")%string.

(** A socket all of whose handlers are closures of the first render, and
    whose address is the one such a closure computes. *)
Definition socket_first_render (host : string) (s : WebSocket) : Prop :=
  slot_first_render (onopen s) /\ slot_first_render (onmessage s)
  /\ slot_first_render (onerror s) /\ slot_first_render (onclose s)
  /\ ws_endpoint host (url s).

Definition timer_first_render (t : Timer) : Prop :=
  callback_snap (callback t) = initialState.

(** Every handler on a socket and every timer callback is a closure of the
    first render. *)
Definition closures_first_render (w : World) : Prop :=
  Forall (socket_first_render (location_host (browser w))) (sockets (browser w))
  /\ Forall timer_first_render (timeouts (browser w))
  /\ Forall timer_first_render (intervals (browser w)).

(** The invariant of the event loop: before the mount nothing exists yet;
    afterwards the mount effect and all installed closures are those of the
    first render. *)
Definition first_render_only (host : string) (w : World) : Prop :=
  location_host (browser w) = host /\
  match lifecycle w with
  | Initial =>
      state w = initialState /\ sockets (browser w) = [] /\ timeouts (browser w) = []
      /\ intervals (browser w) = [] /\ recorders (browser w) = []
  | Mounted snap => snap = initialState /\ closures_first_render w
  | Unmounted => closures_first_render w
  end.

(** The worlds the page can be in. *)
Definition reachable (JSON_parse : string -> option JSON) (JSON_stringify : JSON -> string)
  (w : World) : Prop :=
  exists protocol host clk trace,
    w = run JSON_parse JSON_stringify trace (initialWorld protocol host clk).

(** What a handler may do to the world without touching the life cycle or
    breaking [closures_first_render]. *)
Definition keeps_closures (w w' : World) : Prop :=
  lifecycle w' = lifecycle w
  /\ location_host (browser w') = location_host (browser w)
  /\ (closures_first_render w -> closures_first_render w').

(** [w'] extends the log of [w] by records all stamped [t]. *)
Definition appends_at (t : Z) (w w' : World) : Prop :=
  exists added,
    transcripts (state w') = transcripts (state w) ++ added
    /\ Forall (fun r => timestamp r = t) added.

(** The computation [m] relates every world it starts in to the world it
    leaves, whether it returns or throws. *)
Definition preserves {A : Type} (R : World -> World -> Prop) (m : M A) : Prop :=
  forall w, R w (snd (m w)).


(** The network log is untouched. *)
Definition same_network (w w' : World) : Prop :=
  network (output w') = network (output w).

(** The captures and the timers are untouched. *)
Definition same_captures_and_timers (w w' : World) : Prop :=
  streams (browser w') = streams (browser w)
  /\ timeouts (browser w') = timeouts (browser w)
  /\ intervals (browser w') = intervals (browser w).



(** The reconnect counter stays within its ceiling. *)
Definition attempts_bounded (w w' : World) : Prop :=
  reconnectAttemptsRef (refs w) <= maxReconnectAttempts ->
  reconnectAttemptsRef (refs w') <= maxReconnectAttempts.

(** The two sockets a connection attempt of a closure with snapshot [snap]
    creates on [host]. *)
Definition primary_socket (snap : State) (host : string) : WebSocket :=
  {| url := ((if isSecure snap then "wss://" else "ws://") ++ host
             ++ "/api/transcription")%string;
     readyState := CONNECTING;
     onopen := Some (OnOpen snap);
     onmessage := Some (HandleTranscriptionMessage snap);
     onerror := Some (HandleWebSocketError snap);
     onclose := Some (HandleWebSocketClose snap) |}.

Definition audio_socket (snap : State) (host : string) : WebSocket :=
  {| url := ((if isSecure snap then "wss://" else "ws://") ++ host ++ "/api/tts")%string;
     readyState := CONNECTING;
     onopen := None;
     onmessage := Some (HandleAudioMessage snap);
     onerror := Some (HandleWebSocketError snap);
     onclose := Some (HandleWebSocketClose snap) |}.

(** Only the output changes: life cycle, state cells, refs and browser
    objects are untouched. *)
Definition output_only (w w' : World) : Prop :=
  lifecycle w' = lifecycle w /\ state w' = state w /\ refs w' = refs w
  /\ browser w' = browser w.

(** The toasts are untouched. *)
Definition same_toasts (w w' : World) : Prop := toasts (output w') = toasts (output w).

(** [socketRef.current?.readyState === WebSocket.OPEN]. *)
Definition primary_open (w : World) : bool :=
  match socketRef (refs w) with
  | Some s =>
      match nth_error (sockets (browser w)) s with
      | Some sock => ReadyState_eqb (readyState sock) OPEN
      | None => false
      end
  | None => false
  end.

(** The request to the message endpoint was answered with a status in the
    200s and a JSON body. *)
Definition delivered (fetched : Result Response) : bool :=
  match fetched with
  | Ok r => ok r && match json r with Ok _ => true | Throw _ => false end
  | Throw _ => false
  end.

(** The polling request failed, its answer was not JSON, or it was [null]. *)
Definition poll_failed (fetched : Result Response) : bool :=
  match fetched with
  | Throw _ => true
  | Ok r =>
      match json r with
      | Throw _ => true
      | Ok JNull => true
      | Ok _ => false
      end
  end.

(** The control frame for [message] in world [w]: on the primary socket
    when it is open, to the message endpoint otherwise. *)
Definition control_frame (JSON_stringify : JSON -> string) (w : World) (message : string)
  : Outbound :=
  match socketRef (refs w) with
  | Some s =>
      if primary_open w then SocketSend s (TextData message)
      else HttpRequest {| method := "POST"; path := "/api/send-message";
                          body := Some (JSON_stringify
                                          (JObject [("message", JString message)])) |}
  | None =>
      HttpRequest {| method := "POST"; path := "/api/send-message";
                     body := Some (JSON_stringify
                                     (JObject [("message", JString message)])) |}
  end.

Definition send_error_toast : Toast :=
  {| title := "Error"; description := "Failed to send message";
     variant := Some "destructive" |}.

Definition polling_error_toast : Toast :=
  {| title := "Polling Error"; description := "Failed to fetch updates";
     variant := Some "destructive" |}.

Definition microphone_error_toast : Toast :=
  {| title := "Microphone Error"; description := "Failed to access microphone";
     variant := Some "destructive" |}.

(** The state of a socket after [socket.close()]: closing or closed. *)
Definition closed_or_closing (sock : WebSocket) : Prop :=
  readyState sock = CLOSING \/ readyState sock = CLOSED.

(** The onopen slot of a socket is empty or holds the arrow function that
    [connectWebSocket] assigns to it. *)
Definition onopen_wired (sock : WebSocket) : Prop :=
  match onopen sock with
  | None | Some (OnOpen _) => True
  | Some _ => False
  end.

(** The step keeps every onopen slot of the table as [connectWebSocket]
    wires it. *)
Definition sockets_wired (w w' : World) : Prop :=
  Forall onopen_wired (sockets (browser w)) -> Forall onopen_wired (sockets (browser w')).

(** The toast of the onopen arrow function of a render that saw
    [isSecure = secure]. *)
Definition connected_toast (secure : bool) : Toast :=
  {| title := "Connected";
     description := ("Secure " ++ (if secure then "(HTTPS)" else "(HTTP)")
                       ++ " connection established")%string;
     variant := None |}.


(** No character of [s] is a dash. *)
Fixpoint dash_free (s : string) : bool :=
  match s with
  | EmptyString => true
  | String c rest => negb (Ascii.eqb c "-") && dash_free rest
  end.


(** ** Sample runs

    The event loop with the reader and writer of [JSONText], on a page
    served from [example.com]. *)

Definition sample_run : list Event -> World -> World :=
  run JSONText.parse JSONText.stringify.

Definition sample_page (protocol : string) : World :=
  initialWorld protocol "example.com" (fun n => 1700000000000 + Z.of_nat n)%Z.


(** Both sockets of three attempts in a row close, which starts polling on
    the sixth close; a reconnect scheduled earlier then fires and its
    primary socket opens. *)
Definition live_again_while_polling : list Event :=
  [Mount; SocketClose 0; SocketClose 1; TimeoutFires 0; SocketClose 2; SocketClose 3;
   TimeoutFires 1; SocketClose 4; SocketClose 5; TimeoutFires 2; SocketOpen 6].

(** The user starts recording, the backend is down so that polling starts
    with reconnects still pending, and the page is left. *)
Definition leave_while_recording : list Event :=
  [Mount; ClickRecord (Ok tt) (Throw (Error "Failed to fetch"));
   SocketClose 0; SocketClose 1; TimeoutFires 0; SocketClose 2; SocketClose 3;
   TimeoutFires 1; SocketClose 4; SocketClose 5; Unmount].

(** The same run, except that the user stops the recording instead of
    leaving the page. *)
Definition stop_while_recording : list Event :=
  [Mount; ClickRecord (Ok tt) (Throw (Error "Failed to fetch"));
   SocketClose 0; SocketClose 1; TimeoutFires 0; SocketClose 2; SocketClose 3;
   TimeoutFires 1; SocketClose 4; SocketClose 5;
   ClickRecord (Ok tt) (Throw (Error "Failed to fetch"))].


(** A payload written with ['] where the text has the double quote. *)
Fixpoint payload (s : string) : string :=
  match s with
  | EmptyString => EmptyString
  | String c rest =>
      String (if Ascii.eqb c "'"%char then JSONText.quote else c) (payload rest)
  end.


(** * Properties *)

Unset Implicit Arguments.

(** ** Frames: what a computation preserves

    A relation between the world before and after that is reflexive and
    transitive is preserved by the control structure of the monad as soon
    as the primitive steps preserve it. *)
Section Frames.

Variable R : World -> World -> Prop.
Hypothesis R_refl : forall w, R w w.
Hypothesis R_trans : forall w1 w2 w3, R w1 w2 -> R w2 w3 -> R w1 w3.

Lemma preserves_ret {A : Type} (a : A) : preserves R (ret a).
Proof. intros w; apply R_refl. Qed.

Lemma preserves_throw {A : Type} (e : Exn) : preserves R (@throw A e).
Proof. intros w; apply R_refl. Qed.

Lemma preserves_await {A : Type} (p : Result A) : preserves R (await p).
Proof. intros w; apply R_refl. Qed.

Lemma preserves_gets {A : Type} (f : World -> A) : preserves R (gets f).
Proof. intros w; apply R_refl. Qed.

Lemma preserves_modify (f : World -> World) :
  (forall w, R w (f w)) -> preserves R (modify f).
Proof. intros H w; apply H. Qed.

Lemma preserves_bind {A B : Type} (m : M A) (k : A -> M B) :
  preserves R m -> (forall a, preserves R (k a)) -> preserves R (bind m k).
Proof.
  intros Hm Hk w. unfold bind.
  specialize (Hm w). destruct (m w) as [[a | e] w1]; cbn in *.
  - eapply R_trans; [exact Hm | apply Hk].
  - exact Hm.
Qed.

Lemma preserves_try_catch {A : Type} (body : M A) (handler : Exn -> M A) :
  preserves R body -> (forall e, preserves R (handler e)) -> preserves R (try_catch body handler).
Proof.
  intros Hb Hh w. unfold try_catch.
  specialize (Hb w). destruct (body w) as [[a | e] w1]; cbn in *.
  - exact Hb.
  - eapply R_trans; [exact Hb | apply Hh].
Qed.

Lemma preserves_try_catch_finally {A : Type}
  (body : M A) (handler : Exn -> M A) (final : M unit) :
  preserves R body -> (forall e, preserves R (handler e)) -> preserves R final ->
  preserves R (try_catch_finally body handler final).
Proof.
  intros Hb Hh Hf w. unfold try_catch_finally.
  pose proof (@preserves_try_catch A body handler Hb Hh w) as H1.
  destruct (try_catch body handler w) as [r w1]; cbn in H1.
  specialize (Hf w1). destruct (final w1) as [[u | e] w2]; cbn in *;
    eapply R_trans; eauto.
Qed.

Lemma preserves_spawn (m : M unit) : preserves R m -> preserves R (spawn m).
Proof. intros H w. apply H. Qed.

Lemma preserves_forEach {A : Type} (l : list A) (f : A -> M unit) :
  (forall a, preserves R (f a)) -> preserves R (forEach l f).
Proof.
  intros Hf. induction l as [| x rest IH]; cbn [forEach].
  - apply preserves_ret.
  - apply preserves_bind; [apply Hf | intros _; exact IH].
Qed.

Lemma preserves_js_forEach (v : Value) (f : JSON -> M unit) :
  (forall a, preserves R (f a)) -> preserves R (js_forEach v f).
Proof.
  intros Hf. destruct v as [| []]; cbn [js_forEach];
    try apply preserves_throw. apply preserves_forEach, Hf.
Qed.

Lemma preserves_get (v : Value) (k : string) : preserves R (get v k).
Proof.
  destruct v as [| []]; cbn [get];
    try apply preserves_throw; apply preserves_ret.
Qed.

End Frames.

(** Decomposes a goal [preserves R m] along the structure of [m], given
    the two order facts of [R]. *)
Ltac frame_order refl trans := solve [exact refl | exact trans].

Ltac frame_step refl trans :=
  lazymatch goal with
  | |- preserves _ (bind _ _) =>
      apply preserves_bind; [frame_order refl trans | | intros ?]
  | |- preserves _ (try_catch _ _) =>
      apply preserves_try_catch; [frame_order refl trans | | intros ?]
  | |- preserves _ (try_catch_finally _ _ _) =>
      apply preserves_try_catch_finally; [frame_order refl trans | | intros ? | ]
  | |- preserves _ (spawn _) => apply preserves_spawn
  | |- preserves _ (js_forEach _ _) =>
      apply preserves_js_forEach; [frame_order refl trans .. | intros ?]
  | |- preserves _ (forEach _ _) =>
      apply preserves_forEach; [frame_order refl trans .. | intros ?]
  | |- preserves _ (get _ _) => apply preserves_get; frame_order refl trans
  | |- preserves _ (ret _) => apply preserves_ret; frame_order refl trans
  | |- preserves _ (throw _) => apply preserves_throw; frame_order refl trans
  | |- preserves _ (await _) => apply preserves_await; frame_order refl trans
  | |- preserves _ (gets _) => apply preserves_gets; frame_order refl trans
  | |- preserves _ (if ?c then _ else _) => destruct c
  | |- preserves _ (match ?c with _ => _ end) => destruct c
  end.

Ltac frames refl trans := repeat (frame_step refl trans).

(** ** The message dispatcher *)




Lemma same_state_appends_at (t : Z) (w w' : World) :
  state w' = state w -> appends_at t w w'.
Proof.
  intros E. exists []. rewrite E. split; [symmetry; apply app_nil_r | constructor].
Qed.

Lemma console_error_appends_at (t : Z) (line : string) :
  preserves (appends_at t) (console_error line).
Proof. intros w. apply same_state_appends_at. reflexivity. Qed.

Section Dispatcher.

Variable JSON_parse : string -> option JSON.

(** The dispatcher never throws, whatever the payload. *)
Lemma handleTranscriptionMessage_returns (m : MessageData) (w : World) :
  fst (handleTranscriptionMessage JSON_parse m w) = Ok tt.
Proof.
  unfold handleTranscriptionMessage, try_catch.
  match goal with |- context [match ?b w with _ => _ end] => destruct (b w) as [[[] | e] w1] end;
    reflexivity.
Qed.

(** The body of the dispatcher after the payload was parsed to [data] and
    the clock read as [t]. *)
Local Abbreviation dispatch_body data t :=
  (segments <- get (val data) "segments" ;;
   (if truthy segments then
      js_forEach segments (fun seg =>
        text <- get (val seg) "text" ;;
        setTranscripts (fun prev =>
          prev ++ [{| type := unrevised; content := text; timestamp := t |}]))
    else ret tt) ;;
   llm_output <- get (val data) "llm_output" ;;
   (if truthy llm_output then
      js_forEach llm_output (fun out =>
        eos <- get (val data) "eos" ;;
        setTranscripts (fun prev =>
          prev ++ [{| type := if truthy eos then voice else revised;
                      content := val out; timestamp := t |}]))
    else ret tt))%monad (only parsing).


Lemma handleTranscriptionMessage_malformed (m : MessageData) (w : World) :
  JSON_parse (toString m) = None ->
  handleTranscriptionMessage JSON_parse m w
  = (Ok tt, upd_output (fun o =>
       with_console (console o ++ ["Error parsing transcription message:"]) o) w).
Proof.
  intros Hparse. unfold handleTranscriptionMessage, parse_or_throw.
  rewrite Hparse. reflexivity.
Qed.





(** C3.  A payload that is not JSON: the dispatcher returns normally, the
    transcript log is the one before, and one line went to the console. *)
Theorem malformed_message_dropped (m : MessageData) (w : World) :
  JSON_parse (toString m) = None ->
  fst (handleTranscriptionMessage JSON_parse m w) = Ok tt
  /\ transcripts (state (snd (handleTranscriptionMessage JSON_parse m w)))
     = transcripts (state w)
  /\ console (output (snd (handleTranscriptionMessage JSON_parse m w)))
     = console (output w) ++ ["Error parsing transcription message:"].
Proof.
  intros Hparse. rewrite (handleTranscriptionMessage_malformed m w Hparse).
  repeat split.
Qed.


(** *** The log of a sequence of messages *)






End Dispatcher.

Section MessageSequences.

Variable JSON_parse : string -> option JSON.
Variable JSON_stringify : JSON -> string.

Lemma run_cons (e : Event) (trace : list Event) (w : World) :
  run JSON_parse JSON_stringify (e :: trace) w
  = run JSON_parse JSON_stringify trace (step JSON_parse JSON_stringify w e).
Proof. reflexivity. Qed.


End MessageSequences.

(** ** Polling against the stub *)

Section Polling.

Variable JSON_parse : string -> option JSON.
Variable JSON_stringify : JSON -> string.

(** One tick whose fetch is answered by the stub leaves the log alone. *)
Lemma tick_on_stub_keeps_log (i : nat) (w : World) :
  transcripts (state (step JSON_parse JSON_stringify w
                        (IntervalFires i (Ok transcripts_route_GET))))
  = transcripts (state w).
Proof.
  cbn [step]. destruct (nth_error (intervals (browser w)) i) as [timer |]; [| reflexivity].
  destruct (active timer); [| reflexivity].
  destruct (callback timer) as [snap | snap]; cbn [call_callback].
  - reflexivity.
  - unfold poll. destruct (connectionStatus snap); reflexivity.
Qed.

(** C10.  The stub answers with a JSON array of three entries, and however
    many polling ticks are answered by the stub, the transcript log stays
    what it was: an array has neither a [segments] nor an [llm_output]
    member, so the tick never dispatches. *)
Theorem polling_the_stub_keeps_log :
  (exists a b c, json transcripts_route_GET = Ok (JArray [a; b; c]))
  /\ (forall a, json transcripts_route_GET = Ok a ->
        property a "segments" = undefined /\ property a "llm_output" = undefined)
  /\ (forall (ticks : list nat) (w : World),
        transcripts (state (run JSON_parse JSON_stringify
                              (map (fun i => IntervalFires i (Ok transcripts_route_GET)) ticks)
                              w))
        = transcripts (state w)).
Proof.
  split; [| split].
  - cbn. eauto.
  - intros a E. cbn in E. injection E as <-. split; reflexivity.
  - induction ticks as [| i rest IH]; intros w; [reflexivity |].
    cbn [map]. rewrite run_cons, IH. apply tick_on_stub_keeps_log.
Qed.

End Polling.

(** ** The capture controller: remote streams *)

Section Streaming.

Variable JSON_stringify : JSON -> string.

(** Sending one control message puts exactly one frame on the network:
    on the primary socket when it is open, to the message endpoint
    otherwise. *)
Lemma sendMessage_one_frame (message : string) (fetched : Result Response) (w : World) :
  exists frame,
    network (output (snd (sendMessage JSON_stringify message fetched w)))
    = network (output w) ++ [frame]
    /\ carries JSON_stringify frame message.
Proof.
  assert (Hpost : forall w0,
    network (output (snd (try_catch
      (response <- fetch {| method := "POST"; path := "/api/send-message";
                            body := Some (JSON_stringify
                                            (JObject [("message", JString message)])) |}
                         fetched ;;
       (if negb (ok response)
        then throw (Error ("HTTP error! status: "
                             ++ NilZero.string_of_uint (Nat.to_uint (status response)))%string)
        else ret tt) ;;
       data <- await (json response) ;;
       console_log "Message sent successfully:")
      (fun error =>
         console_error "Error sending message:" ;;
         toast {| title := "Error"; description := "Failed to send message";
                  variant := Some "destructive" |}) w0)))
    = network (output w0)
      ++ [HttpRequest {| method := "POST"; path := "/api/send-message";
                         body := Some (JSON_stringify
                                         (JObject [("message", JString message)])) |}]).
  { intros w0. unfold try_catch, bind, fetch, await, modify. cbn.
    destruct fetched as [response | e]; cbn; [| reflexivity].
    destruct (ok response); cbn; [| reflexivity].
    destruct (json response); reflexivity. }
  unfold sendMessage, readyState_of, bind, gets. cbn [fst snd].
  destruct (socketRef (refs w)) as [socket |].
  - destruct (option_map readyState (nth_error (sockets (browser w)) socket))
      as [[] |].
    2:{ eexists; split; [reflexivity | left; eauto]. }
    all: eexists; split; [apply Hpost | right; reflexivity].
  - eexists; split; [apply Hpost | right; reflexivity].
Qed.

(** C6.  Start-streaming with an empty URL shows the error toast and puts
    nothing on the network; with a URL [u] that is not empty it puts
    exactly one frame on the network, which carries [START_STREAMING:u]. *)
Theorem handleStartStreaming_spec (snap : State) (fetched : Result Response) (w : World) :
  match streamUrl snap with
  | EmptyString =>
      network (output (exec (handleStartStreaming JSON_stringify snap fetched) w))
      = network (output w)
      /\ toasts (output (exec (handleStartStreaming JSON_stringify snap fetched) w))
         = toasts (output w)
           ++ [{| title := "Error"; description := "Please enter a stream URL";
                  variant := Some "destructive" |}]
  | u =>
      exists frame,
        network (output (exec (handleStartStreaming JSON_stringify snap fetched) w))
        = network (output w) ++ [frame]
        /\ carries JSON_stringify frame ("START_STREAMING:" ++ u)
  end.
Proof.
  unfold handleStartStreaming, exec.
  destruct (streamUrl snap) as [| c rest]; cbn [String.eqb].
  - split; reflexivity.
  - unfold spawn. cbn [snd]. apply sendMessage_one_frame.
Qed.

End Streaming.

(** ** Playback *)

(** Without an audio element a playback request does nothing at all. *)
Lemma playAudio_unattached (u : string) (played : Result unit) (w : World) :
  audioRef (refs w) = None -> playAudio u played w = (Ok tt, w).
Proof. intros H. unfold playAudio, bind, gets. rewrite H. reflexivity. Qed.


(** ** Closures: every handler is one of the first render *)

Lemma keeps_closures_refl (w : World) : keeps_closures w w.
Proof. split; [reflexivity | split; [reflexivity | auto]]. Qed.

Lemma keeps_closures_trans (w1 w2 w3 : World) :
  keeps_closures w1 w2 -> keeps_closures w2 w3 -> keeps_closures w1 w3.
Proof.
  intros [L1 [H1 C1]] [L2 [H2 C2]]. split; [congruence | split; [congruence | auto]].
Qed.

(** A step that leaves the life cycle, the sockets and the timers alone. *)
Lemma keeps_of_same_tables (w w' : World) :
  lifecycle w' = lifecycle w ->
  location_host (browser w') = location_host (browser w) ->
  sockets (browser w') = sockets (browser w) ->
  timeouts (browser w') = timeouts (browser w) ->
  intervals (browser w') = intervals (browser w) ->
  keeps_closures w w'.
Proof.
  intros L H S T I. split; [exact L | split; [exact H |]].
  unfold closures_first_render. rewrite H, S, T, I. auto.
Qed.

Ltac quiet := intros ?w; apply keeps_of_same_tables; reflexivity.

Ltac closure_frame := frame_step keeps_closures_refl keeps_closures_trans.

Ltac closure_frames := frames keeps_closures_refl keeps_closures_trans.

Lemma Forall_replace_nth {A : Type} (P : A -> Prop) (i : nat) (x : A) (l : list A) :
  Forall P l -> P x -> Forall P (replace_nth i x l).
Proof.
  intros Hl Hx. revert i. induction Hl as [| y rest Hy Hrest IH]; intros i.
  - destruct i; constructor.
  - destruct i; cbn; constructor; auto.
Qed.

Lemma update_socket_keeps (s : nat) (f : WebSocket -> WebSocket) :
  (forall host sock, socket_first_render host sock -> socket_first_render host (f sock)) ->
  preserves keeps_closures (update_socket s f).
Proof.
  intros Hf w. unfold keeps_closures, closures_first_render.
  unfold update_socket, modify, upd_browser. cbn.
  destruct (nth_error (sockets (browser w)) s) as [sock |] eqn:E; cbn; [| auto].
  split; [reflexivity | split; [reflexivity |]]. intros [Hs [Ht Hi]].
  repeat split; auto. apply Forall_replace_nth; [exact Hs |].
  apply Hf. rewrite Forall_forall in Hs. apply Hs. eapply nth_error_In; eassumption.
Qed.

Lemma with_readyState_first_render (v : ReadyState) (host : string) (sock : WebSocket) :
  socket_first_render host sock -> socket_first_render host (with_readyState v sock).
Proof. auto. Qed.

Lemma setTimeout_keeps (cb : Callback) (ms : nat) :
  callback_snap cb = initialState -> preserves keeps_closures (setTimeout cb ms).
Proof.
  intros Hcb w. split; [reflexivity | split; [reflexivity |]]. intros [Hs [Ht Hi]].
  unfold closures_first_render. cbn. repeat split; auto.
  apply Forall_app. split; [exact Ht |]. repeat constructor. exact Hcb.
Qed.

Lemma setInterval_keeps (cb : Callback) (ms : nat) :
  callback_snap cb = initialState -> preserves keeps_closures (setInterval cb ms).
Proof.
  intros Hcb w. split; [reflexivity | split; [reflexivity |]]. intros [Hs [Ht Hi]].
  unfold closures_first_render. cbn. repeat split; auto.
  apply Forall_app. split; [exact Hi |]. repeat constructor. exact Hcb.
Qed.

Lemma socket_close_keeps (r : option nat) : preserves keeps_closures (socket_close r).
Proof.
  destruct r as [s |]; cbn [socket_close].
  - apply update_socket_keeps. intros host sock H. destruct (readyState sock); auto.
  - apply preserves_ret. apply keeps_closures_refl.
Qed.

Lemma stopAudioStream_keeps (snap : State) : preserves keeps_closures (stopAudioStream snap).
Proof. unfold stopAudioStream. closure_frames; quiet. Qed.

(** A connection attempt by a closure of the first render: both new
    sockets get the unencrypted address, since that render saw
    [isSecure = false]. *)
Lemma connectWebSocket_keeps :
  preserves keeps_closures (connectWebSocket initialState).
Proof.
  intros w.
  set (host := location_host (browser w)).
  set (fresh u := {| url := u; readyState := CONNECTING; onopen := None;
                     onmessage := None; onerror := None; onclose := None |}).
  set (w2 := upd_refs (with_audioSocketRef (Some (List.length (sockets (browser w) ++
                  [fresh ("ws://" ++ host ++ "/api/transcription")%string]))))
               (upd_browser (fun b => with_sockets
                  (sockets b ++ [fresh ("ws://" ++ host ++ "/api/tts")%string]) b)
               (upd_refs (with_socketRef (Some (List.length (sockets (browser w)))))
               (upd_browser (fun b => with_sockets
                  (sockets b ++ [fresh ("ws://" ++ host ++ "/api/transcription")%string]) b)
               (upd_state (with_connectionStatus connecting) w))))).
  assert (K2 : keeps_closures w w2).
  { split; [reflexivity | split; [reflexivity |]]. intros [Hs [Ht Hi]].
    unfold closures_first_render. cbn. repeat split; auto.
    rewrite <- app_assoc. apply Forall_app. split; [exact Hs |].
    apply Forall_cons; [| apply Forall_cons; [| apply Forall_nil]];
      unfold socket_first_render; cbn; repeat split; [left | right]; reflexivity. }
  eapply keeps_closures_trans; [exact K2 |].
  change (snd (connectWebSocket initialState w))
    with (snd ((update_socket (List.length (sockets (browser w)))
                  (with_onopen (OnOpen initialState)) ;;
                update_socket (List.length (sockets (browser w)))
                  (with_onmessage (HandleTranscriptionMessage initialState)) ;;
                update_socket (List.length (sockets (browser w) ++
                  [fresh ("ws://" ++ host ++ "/api/transcription")%string]))
                  (with_onmessage (HandleAudioMessage initialState)) ;;
                update_socket (List.length (sockets (browser w)))
                  (with_onerror (HandleWebSocketError initialState)) ;;
                update_socket (List.length (sockets (browser w) ++
                  [fresh ("ws://" ++ host ++ "/api/transcription")%string]))
                  (with_onerror (HandleWebSocketError initialState)) ;;
                update_socket (List.length (sockets (browser w)))
                  (with_onclose (HandleWebSocketClose initialState)) ;;
                update_socket (List.length (sockets (browser w) ++
                  [fresh ("ws://" ++ host ++ "/api/transcription")%string]))
                  (with_onclose (HandleWebSocketClose initialState)))%monad w2)).
  match goal with |- keeps_closures w2 (snd (?m w2)) =>
    enough (K : preserves keeps_closures m) by exact (K w2) end.
  closure_frames;
    (apply update_socket_keeps; intros h sock [? [? [? [? ?]]]];
     repeat split; auto; reflexivity).
Qed.

Lemma handleWebSocketClose_keeps :
  preserves keeps_closures (handleWebSocketClose initialState).
Proof.
  unfold handleWebSocketClose, startPolling.
  closure_frames;
    first [ quiet | apply setTimeout_keeps; reflexivity
          | apply setInterval_keeps; reflexivity ].
Qed.

Lemma onopen_handler_keeps (snap : State) : preserves keeps_closures (onopen_handler snap).
Proof. unfold onopen_handler. closure_frames; quiet. Qed.

Lemma handleWebSocketError_keeps : preserves keeps_closures handleWebSocketError.
Proof. unfold handleWebSocketError. closure_frames; quiet. Qed.

Lemma playAudio_keeps (u : string) (played : Result unit) :
  preserves keeps_closures (playAudio u played).
Proof. unfold playAudio. closure_frames; quiet. Qed.

Lemma handleAudioMessage_keeps (d : MessageData) (played : Result unit) :
  preserves keeps_closures (handleAudioMessage d played).
Proof.
  unfold handleAudioMessage. closure_frames; first [apply playAudio_keeps | quiet].
Qed.

Section ClosuresOfTheEventLoop.

Variable JSON_parse : string -> option JSON.
Variable JSON_stringify : JSON -> string.

Lemma handleTranscriptionMessage_keeps (d : MessageData) :
  preserves keeps_closures (handleTranscriptionMessage JSON_parse d).
Proof.
  unfold handleTranscriptionMessage, parse_or_throw. closure_frames; quiet.
Qed.

Lemma sendMessage_keeps (message : string) (fetched : Result Response) :
  preserves keeps_closures (sendMessage JSON_stringify message fetched).
Proof.
  unfold sendMessage, readyState_of, fetch. closure_frames; quiet.
Qed.

Lemma poll_keeps (snap : State) (fetched : Result Response) :
  preserves keeps_closures (poll JSON_parse JSON_stringify snap fetched).
Proof.
  unfold poll, fetch.
  closure_frames; first [apply handleTranscriptionMessage_keeps | quiet].
Qed.

Lemma ondataavailable_keeps (chunk : Blob) : preserves keeps_closures (ondataavailable chunk).
Proof. unfold ondataavailable, readyState_of. closure_frames; quiet. Qed.

Lemma startRecording_keeps (granted : Result unit) (fetched : Result Response) :
  preserves keeps_closures (startRecording JSON_stringify granted fetched).
Proof.
  unfold startRecording, getUserMedia.
  closure_frames; first [apply sendMessage_keeps | quiet].
Qed.

Lemma stopRecording_keeps (snap : State) (fetched : Result Response) :
  preserves keeps_closures (stopRecording JSON_stringify snap fetched).
Proof.
  unfold stopRecording.
  closure_frames;
    first [apply sendMessage_keeps | apply stopAudioStream_keeps | quiet].
Qed.

Lemma handleStartStreaming_keeps (snap : State) (fetched : Result Response) :
  preserves keeps_closures (handleStartStreaming JSON_stringify snap fetched).
Proof.
  unfold handleStartStreaming. closure_frames; first [apply sendMessage_keeps | quiet].
Qed.

Lemma mountEffect_keeps : preserves keeps_closures (mountEffect initialState).
Proof.
  unfold mountEffect. closure_frames; first [apply connectWebSocket_keeps | quiet].
Qed.

Lemma mountCleanup_keeps (snap : State) : preserves keeps_closures (mountCleanup snap).
Proof.
  unfold mountCleanup.
  closure_frames;
    first [apply socket_close_keeps | apply stopAudioStream_keeps | quiet].
Qed.

Lemma call_handler_keeps (h : option Handler) (d : MessageData) (played : Result unit) :
  slot_first_render h ->
  preserves keeps_closures (call_handler JSON_parse h d played).
Proof.
  destruct h as [[snap | snap | snap | snap | snap] |]; cbn [slot_first_render handler_snap];
    intros H; cbn [call_handler]; try subst snap.
  - apply onopen_handler_keeps.
  - apply preserves_spawn, handleTranscriptionMessage_keeps.
  - apply preserves_spawn, handleAudioMessage_keeps.
  - apply handleWebSocketError_keeps.
  - apply handleWebSocketClose_keeps.
  - apply preserves_ret, keeps_closures_refl.
Qed.

Lemma call_callback_keeps (cb : Callback) (fetched : Result Response) :
  callback_snap cb = initialState ->
  preserves keeps_closures (call_callback JSON_parse JSON_stringify cb fetched).
Proof.
  destruct cb as [snap | snap]; cbn [callback_snap call_callback]; intros ->.
  - apply connectWebSocket_keeps.
  - apply poll_keeps.
Qed.

End ClosuresOfTheEventLoop.

Section Invariant.

Variable JSON_parse : string -> option JSON.
Variable JSON_stringify : JSON -> string.

(** A handler that keeps the closures, run after the mount. *)
Lemma exec_first_render_only (m : M unit) (host : string) (w : World) :
  preserves keeps_closures m ->
  lifecycle w <> Initial ->
  first_render_only host w -> first_render_only host (exec m w).
Proof.
  intros Hm Hlife [Hhost Hw]. destruct (Hm w) as [L [H C]].
  unfold exec, first_render_only in *.
  rewrite L, H. split; [exact Hhost |].
  destruct (lifecycle w) as [| snap |]; [contradiction | |].
  - destruct Hw as [Hsnap Hc]. split; auto.
  - auto.
Qed.

Lemma initial_has_nothing (host : string) (w : World) :
  first_render_only host w -> lifecycle w = Initial ->
  state w = initialState /\ sockets (browser w) = [] /\ timeouts (browser w) = []
  /\ intervals (browser w) = [] /\ recorders (browser w) = [].
Proof. unfold first_render_only. intros [_ H] E. rewrite E in H. exact H. Qed.

Lemma closures_after_mount (host : string) (w : World) :
  first_render_only host w -> lifecycle w <> Initial -> closures_first_render w.
Proof.
  unfold first_render_only. destruct (lifecycle w); intros [_ H] N;
    [contradiction | apply H | exact H].
Qed.

Lemma nth_error_nil_inv {A : Type} (l : list A) (i : nat) (x : A) :
  nth_error l i = Some x -> l <> [].
Proof. intros H E. subst l. destruct i; discriminate H. Qed.

(** A world with a socket, a timer or a recorder is past its mount. *)
Lemma not_initial_of_socket (host : string) (w : World) (s : nat) (sock : WebSocket) :
  first_render_only host w -> nth_error (sockets (browser w)) s = Some sock ->
  lifecycle w <> Initial.
Proof.
  intros Hw Hs E. destruct (initial_has_nothing _ _ Hw E) as [_ [S _]].
  exact (nth_error_nil_inv _ _ _ Hs S).
Qed.

Lemma not_initial_of_timeout (host : string) (w : World) (t : nat) (timer : Timer) :
  first_render_only host w -> nth_error (timeouts (browser w)) t = Some timer ->
  lifecycle w <> Initial.
Proof.
  intros Hw Ht E. destruct (initial_has_nothing _ _ Hw E) as [_ [_ [T _]]].
  exact (nth_error_nil_inv _ _ _ Ht T).
Qed.

Lemma not_initial_of_interval (host : string) (w : World) (i : nat) (timer : Timer) :
  first_render_only host w -> nth_error (intervals (browser w)) i = Some timer ->
  lifecycle w <> Initial.
Proof.
  intros Hw Hi E. destruct (initial_has_nothing _ _ Hw E) as [_ [_ [_ [I _]]]].
  exact (nth_error_nil_inv _ _ _ Hi I).
Qed.

Lemma not_initial_of_recorder (host : string) (w : World) (r : nat) (stream : MediaStream) :
  first_render_only host w -> nth_error (recorders (browser w)) r = Some stream ->
  lifecycle w <> Initial.
Proof.
  intros Hw Hr E. destruct (initial_has_nothing _ _ Hw E) as [_ [_ [_ [_ R]]]].
  exact (nth_error_nil_inv _ _ _ Hr R).
Qed.

Lemma not_initial_of_mounted (w : World) : is_mounted w = true -> lifecycle w <> Initial.
Proof. unfold is_mounted. destruct (lifecycle w); intros H E; discriminate. Qed.

Lemma socket_of_world_first_render (host : string) (w : World) (s : nat) (sock : WebSocket) :
  first_render_only host w -> nth_error (sockets (browser w)) s = Some sock ->
  socket_first_render host sock.
Proof.
  intros Hw Hs.
  destruct (closures_after_mount _ _ Hw (not_initial_of_socket _ _ _ _ Hw Hs)) as [HS _].
  destruct Hw as [<- _].
  rewrite Forall_forall in HS. apply HS. eapply nth_error_In; eassumption.
Qed.

Lemma timeout_of_world_first_render (host : string) (w : World) (t : nat) (timer : Timer) :
  first_render_only host w -> nth_error (timeouts (browser w)) t = Some timer ->
  timer_first_render timer.
Proof.
  intros Hw Ht.
  destruct (closures_after_mount _ _ Hw (not_initial_of_timeout _ _ _ _ Hw Ht)) as [_ [HT _]].
  rewrite Forall_forall in HT. apply HT. eapply nth_error_In; eassumption.
Qed.

Lemma interval_of_world_first_render (host : string) (w : World) (i : nat) (timer : Timer) :
  first_render_only host w -> nth_error (intervals (browser w)) i = Some timer ->
  timer_first_render timer.
Proof.
  intros Hw Hi.
  destruct (closures_after_mount _ _ Hw (not_initial_of_interval _ _ _ _ Hw Hi)) as [_ [_ HI]].
  rewrite Forall_forall in HI. apply HI. eapply nth_error_In; eassumption.
Qed.

(** Every task keeps the invariant. *)
Lemma step_first_render_only (host : string) (w : World) (e : Event) :
  first_render_only host w ->
  first_render_only host (step JSON_parse JSON_stringify w e).
Proof.
  intros Hw. destruct e; cbn [step].
  - (* Mount *)
    destruct (lifecycle w) eqn:L; try exact Hw.
    destruct (initial_has_nothing _ _ Hw L) as [St [S [T [I R]]]].
    rewrite St.
    assert (K : preserves keeps_closures
                  (modify (upd_refs (with_audioRef (Some {| src := EmptyString |}))) ;;
                   mountEffect initialState)%monad).
    { closure_frame; [quiet | apply mountEffect_keeps]. }
    destruct (K (with_lifecycle (Mounted initialState) w)) as [KL [KH KC]].
    unfold first_render_only, exec. rewrite KL, KH. cbn [lifecycle with_lifecycle].
    split; [apply Hw |].
    split; [reflexivity |]. apply KC. unfold closures_first_render. cbn.
    rewrite S, T, I. repeat split; constructor.
  - (* Unmount *)
    destruct (lifecycle w) as [| snap |] eqn:L; try exact Hw.
    assert (K : preserves keeps_closures
                  (modify (upd_refs (with_audioRef None)) ;; mountCleanup snap)%monad).
    { closure_frame; [quiet | apply mountCleanup_keeps]. }
    destruct (K (with_lifecycle Unmounted w)) as [KL [KH KC]].
    unfold first_render_only, exec. rewrite KL, KH. cbn [lifecycle with_lifecycle].
    split; [apply Hw |].
    apply KC. unfold first_render_only in Hw. rewrite L in Hw. apply Hw.
  - (* SocketOpen *)
    destruct (nth_error (sockets (browser w)) s) as [sock |] eqn:E; [| exact Hw].
    destruct (readyState sock); try exact Hw.
    apply exec_first_render_only; [| eapply not_initial_of_socket; eassumption | exact Hw].
    closure_frame; [apply update_socket_keeps, with_readyState_first_render |].
    apply call_handler_keeps. eapply (socket_of_world_first_render host); eassumption.
  - (* SocketMessage *)
    destruct (nth_error (sockets (browser w)) s) as [sock |] eqn:E; [| exact Hw].
    destruct (readyState sock); try exact Hw.
    apply exec_first_render_only; [| eapply not_initial_of_socket; eassumption | exact Hw].
    apply call_handler_keeps. eapply (socket_of_world_first_render host); eassumption.
  - (* SocketError *)
    destruct (nth_error (sockets (browser w)) s) as [sock |] eqn:E; [| exact Hw].
    destruct (readyState sock); try exact Hw;
      (apply exec_first_render_only;
       [| eapply not_initial_of_socket; eassumption | exact Hw];
       apply call_handler_keeps; eapply (socket_of_world_first_render host); eassumption).
  - (* SocketClose *)
    destruct (nth_error (sockets (browser w)) s) as [sock |] eqn:E; [| exact Hw].
    destruct (readyState sock); try exact Hw;
      (apply exec_first_render_only;
       [| eapply not_initial_of_socket; eassumption | exact Hw];
       closure_frame; [apply update_socket_keeps, with_readyState_first_render |];
       apply call_handler_keeps; eapply (socket_of_world_first_render host); eassumption).
  - (* TimeoutFires *)
    destruct (nth_error (timeouts (browser w)) t) as [timer |] eqn:E; [| exact Hw].
    destruct (active timer); [| exact Hw].
    pose proof (timeout_of_world_first_render _ _ _ _ Hw E) as Ht.
    apply exec_first_render_only; [| eapply not_initial_of_timeout; eassumption | exact Hw].
    closure_frame; [| apply call_callback_keeps; exact Ht].
    intros w0. split; [reflexivity | split; [reflexivity |]]. intros [HS [HT HI]].
    unfold closures_first_render. cbn. repeat split; auto.
    apply Forall_replace_nth; [exact HT | exact Ht].
  - (* IntervalFires *)
    destruct (nth_error (intervals (browser w)) i) as [timer |] eqn:E; [| exact Hw].
    destruct (active timer); [| exact Hw].
    apply exec_first_render_only; [| eapply not_initial_of_interval; eassumption | exact Hw].
    apply call_callback_keeps. eapply interval_of_world_first_render; eassumption.
  - (* DataAvailable *)
    destruct (nth_error (recorders (browser w)) r) as [stream |] eqn:E; [| exact Hw].
    destruct (nth_error (streams (browser w)) stream) as [[] |]; try exact Hw.
    apply exec_first_render_only; [| eapply not_initial_of_recorder; eassumption | exact Hw].
    apply ondataavailable_keeps.
  - (* SelectInput *)
    destruct (is_mounted w) eqn:Mo; [| exact Hw].
    apply exec_first_render_only; [quiet | apply not_initial_of_mounted, Mo | exact Hw].
  - (* ClickRecord *)
    destruct (is_mounted w) eqn:Mo; cbn [andb]; [| exact Hw].
    destruct (inputType (state w) =? "microphone"); [| exact Hw].
    destruct (isRecording (state w));
      (apply exec_first_render_only; [| apply not_initial_of_mounted, Mo | exact Hw]).
    + apply stopRecording_keeps.
    + apply startRecording_keeps.
  - (* ChangeStreamUrl *)
    destruct (is_mounted w) eqn:Mo; cbn [andb]; [| exact Hw].
    destruct (stream_input w); [| exact Hw].
    apply exec_first_render_only; [quiet | apply not_initial_of_mounted, Mo | exact Hw].
  - (* ClickStartStreaming *)
    destruct (is_mounted w) eqn:Mo; cbn [andb]; [| exact Hw].
    destruct (stream_input w); [| exact Hw].
    apply exec_first_render_only; [| apply not_initial_of_mounted, Mo | exact Hw].
    apply handleStartStreaming_keeps.
Qed.

Lemma run_first_render_only (host : string) (trace : list Event) (w : World) :
  first_render_only host w ->
  first_render_only host (run JSON_parse JSON_stringify trace w).
Proof.
  revert w. induction trace as [| e rest IH]; intros w Hw; [exact Hw |].
  rewrite run_cons. apply IH, step_first_render_only, Hw.
Qed.

(** In every world the page can be in, the mount effect and all handlers
    and timer callbacks are closures of the first render. *)
Lemma reachable_first_render_only (w : World) :
  reachable JSON_parse JSON_stringify w ->
  first_render_only (location_host (browser w)) w.
Proof.
  intros [protocol [host [clk [trace ->]]]].
  assert (H : first_render_only host
                (run JSON_parse JSON_stringify trace (initialWorld protocol host clk))).
  { apply run_first_render_only. cbn. repeat split. }
  destruct H as [Hh H]. split; [reflexivity | exact H].
Qed.

End Invariant.

(** ** The connection manager: reconnecting and falling back *)

(** A close event below the ceiling: one more attempt is counted and one
    reconnect is scheduled. *)
Lemma close_below_ceiling (snap : State) (w : World) :
  reconnectAttemptsRef (refs w) < maxReconnectAttempts ->
  connectionStatus (state (exec (handleWebSocketClose snap) w)) = disconnected
  /\ reconnectAttemptsRef (refs (exec (handleWebSocketClose snap) w))
     = S (reconnectAttemptsRef (refs w))
  /\ timeouts (browser (exec (handleWebSocketClose snap) w))
     = timeouts (browser w) ++ [reconnect_timer snap]
  /\ intervals (browser (exec (handleWebSocketClose snap) w)) = intervals (browser w).
Proof.
  intros H. apply Nat.ltb_lt in H.
  unfold exec, handleWebSocketClose, bind, gets. cbn [console_log setConnectionStatus modify].
  cbn [fst snd upd_state upd_output refs]. rewrite H. cbn. repeat split.
Qed.

(** A close event at the ceiling: polling starts and no reconnect is
    scheduled. *)
Lemma close_at_ceiling (snap : State) (w : World) :
  maxReconnectAttempts <= reconnectAttemptsRef (refs w) ->
  connectionStatus (state (exec (handleWebSocketClose snap) w)) = polling
  /\ reconnectAttemptsRef (refs (exec (handleWebSocketClose snap) w))
     = reconnectAttemptsRef (refs w)
  /\ timeouts (browser (exec (handleWebSocketClose snap) w)) = timeouts (browser w)
  /\ intervals (browser (exec (handleWebSocketClose snap) w))
     = intervals (browser w) ++ [poll_timer snap].
Proof.
  intros H. apply Nat.ltb_ge in H.
  unfold exec, handleWebSocketClose, bind, gets. cbn [console_log setConnectionStatus modify].
  cbn [fst snd upd_state upd_output refs]. rewrite H. cbn. repeat split.
Qed.






(** ** Consequences of the stale closures *)

Lemma same_network_refl (w : World) : same_network w w.
Proof. reflexivity. Qed.

Lemma same_network_trans (w1 w2 w3 : World) :
  same_network w1 w2 -> same_network w2 w3 -> same_network w1 w3.
Proof. unfold same_network. congruence. Qed.

Lemma same_captures_and_timers_refl (w : World) : same_captures_and_timers w w.
Proof. repeat split. Qed.

Lemma same_captures_and_timers_trans (w1 w2 w3 : World) :
  same_captures_and_timers w1 w2 -> same_captures_and_timers w2 w3 ->
  same_captures_and_timers w1 w3.
Proof.
  unfold same_captures_and_timers. intros [S1 [T1 I1]] [S2 [T2 I2]].
  repeat split; congruence.
Qed.

Lemma socket_close_same_captures_and_timers (r : option nat) :
  preserves same_captures_and_timers (socket_close r).
Proof.
  destruct r as [s |]; cbn [socket_close]; intros w; [| repeat split].
  unfold update_socket, modify, upd_browser, same_captures_and_timers. cbn.
  destruct (nth_error (sockets (browser w)) s); repeat split.
Qed.

Section StaleClosures.

Variable JSON_parse : string -> option JSON.
Variable JSON_stringify : JSON -> string.

Lemma handleTranscriptionMessage_same_network (d : MessageData) :
  preserves same_network (handleTranscriptionMessage JSON_parse d).
Proof.
  unfold handleTranscriptionMessage, parse_or_throw.
  frames same_network_refl same_network_trans; intros w; reflexivity.
Qed.

(** A guarded fetch puts its request on the network, whatever follows. *)
Lemma fetch_then_quiet {A : Type} (req : Request) (fetched : Result Response)
  (k : Response -> M A) (handler : Exn -> M A) (w : World) :
  (forall r, preserves same_network (k r)) ->
  (forall e, preserves same_network (handler e)) ->
  network (output (snd (try_catch (r <- fetch req fetched ;; k r) handler w)))
  = network (output w) ++ [HttpRequest req].
Proof.
  intros Hk Hh. unfold try_catch, fetch, modify, await, bind. cbn [fst snd].
  set (w1 := upd_output _ w).
  destruct fetched as [response | e].
  - pose proof (Hk response w1) as K. unfold same_network in K.
    destruct (k response w1) as [[a | e] w2]; cbn [snd] in *.
    + rewrite K. reflexivity.
    + pose proof (Hh e w2) as H. unfold same_network in H. rewrite H, K. reflexivity.
  - pose proof (Hh e w1) as H. unfold same_network in H. rewrite H. reflexivity.
Qed.

(** The polling closure of the first render saw the status [disconnected]:
    its tick sends the request in every world, whatever the status is by
    then. *)
Lemma first_render_poll_always_fetches (fetched : Result Response) (w : World) :
  network (output (exec (poll JSON_parse JSON_stringify initialState fetched) w))
  = network (output w) ++ [poll_request].
Proof.
  unfold exec, poll. cbn [connectionStatus initialState ConnectionStatus_eqb negb].
  apply fetch_then_quiet.
  - intros r. frames same_network_refl same_network_trans;
      first [apply handleTranscriptionMessage_same_network | intros w0; reflexivity].
  - intros e. frames same_network_refl same_network_trans; intros w0; reflexivity.
Qed.

(** Every active interval of a reachable world ticks with a closure of the
    first render. *)
Lemma reachable_interval_first_render (w : World) (i : nat) (timer : Timer) :
  reachable JSON_parse JSON_stringify w ->
  nth_error (intervals (browser w)) i = Some timer ->
  callback_snap (callback timer) = initialState.
Proof.
  intros Hr Hi.
  exact (interval_of_world_first_render _ w i timer
           (reachable_first_render_only JSON_parse JSON_stringify w Hr) Hi).
Qed.

(** In every world the page can be in, a tick of an active polling
    interval sends its request, whatever the connection status is. *)
Lemma reachable_tick_always_fetches (w : World) (i : nat) (timer : Timer) (snap : State)
  (fetched : Result Response) :
  reachable JSON_parse JSON_stringify w ->
  nth_error (intervals (browser w)) i = Some timer ->
  active timer = true ->
  callback timer = CbPoll snap ->
  network (output (step JSON_parse JSON_stringify w (IntervalFires i fetched)))
  = network (output w) ++ [poll_request].
Proof.
  intros Hr Hi Ha Hc.
  pose proof (reachable_interval_first_render w i timer Hr Hi) as Hs.
  rewrite Hc in Hs. cbn [callback_snap] in Hs. subst snap.
  cbn [step]. rewrite Hi, Ha, Hc. cbn [call_callback].
  apply first_render_poll_always_fetches.
Qed.

(** Whatever scheme the page was loaded over, every socket the page ever
    creates has an unencrypted address. *)
Lemma sockets_never_encrypted (protocol host : string) (clk : nat -> Z)
  (trace : list Event) :
  Forall (fun s => ws_endpoint host (url s))
    (sockets (browser (run JSON_parse JSON_stringify trace
                         (initialWorld protocol host clk)))).
Proof.
  assert (H : first_render_only host
                (run JSON_parse JSON_stringify trace (initialWorld protocol host clk))).
  { apply run_first_render_only. cbn. repeat split. }
  destruct H as [Hh H]. unfold closures_first_render in H. rewrite Hh in H.
  destruct (lifecycle _).
  - destruct H as [_ [S _]]. rewrite S. constructor.
  - destruct H as [_ [S _]]. eapply Forall_impl; [| exact S]. intros s Hs. apply Hs.
  - destruct H as [S _]. eapply Forall_impl; [| exact S]. intros s Hs. apply Hs.
Qed.

(** The cleanup of a reachable world is the one of the first render, which
    saw no capture: unmounting releases no capture and cancels no timer. *)
Lemma unmount_releases_nothing (w : World) (snap : State) :
  reachable JSON_parse JSON_stringify w ->
  lifecycle w = Mounted snap ->
  streams (browser (step JSON_parse JSON_stringify w Unmount)) = streams (browser w)
  /\ timeouts (browser (step JSON_parse JSON_stringify w Unmount)) = timeouts (browser w)
  /\ intervals (browser (step JSON_parse JSON_stringify w Unmount)) = intervals (browser w).
Proof.
  intros Hr L.
  pose proof (reachable_first_render_only JSON_parse JSON_stringify w Hr) as [_ H].
  rewrite L in H. destruct H as [-> _].
  cbn [step]. rewrite L.
  assert (K : preserves same_captures_and_timers
                (modify (upd_refs (with_audioRef None)) ;; mountCleanup initialState)%monad).
  { unfold mountCleanup, stopAudioStream. cbn [audioStream initialState].
    frames same_captures_and_timers_refl same_captures_and_timers_trans;
      first [apply socket_close_same_captures_and_timers | intros w0; repeat split]. }
  exact (K (with_lifecycle Unmounted w)).
Qed.

End StaleClosures.

(** ** The defects, on sample runs *)

(** C4.  On a page loaded over https the state cell [isSecure] becomes
    true, yet the first connection and every later one goes to a [ws://]
    address: the closures that connect are those of the first render, which
    saw [isSecure = false]. *)
Theorem https_page_connects_over_ws
  (JSON_parse : string -> option JSON) (JSON_stringify : JSON -> string)
  (host : string) (clk : nat -> Z) :
  isSecure (state (run JSON_parse JSON_stringify [Mount] (initialWorld "https:" host clk)))
  = true
  /\ map url (sockets (browser (run JSON_parse JSON_stringify [Mount]
                                  (initialWorld "https:" host clk))))
     = [("ws://" ++ host ++ "/api/transcription")%string;
        ("ws://" ++ host ++ "/api/tts")%string]
  /\ (forall trace,
        Forall (fun s => ws_endpoint host (url s))
          (sockets (browser (run JSON_parse JSON_stringify trace
                               (initialWorld "https:" host clk))))).
Proof.
  split; [reflexivity | split; [reflexivity |]].
  intros trace. apply sockets_never_encrypted.
Qed.

(** C5.  Polling has started, a reconnect scheduled before succeeds and the
    status is connected; the next polling tick still sends its request. *)
Theorem poll_fetches_while_connected (fetched : Result Response) :
  connectionStatus (state (sample_run live_again_while_polling (sample_page "http:")))
  = connected
  /\ nth_error (intervals (browser (sample_run live_again_while_polling
                                      (sample_page "http:")))) 0
     = Some (poll_timer initialState)
  /\ network (output (step JSONText.parse JSONText.stringify
                        (sample_run live_again_while_polling (sample_page "http:"))
                        (IntervalFires 0 fetched)))
     = network (output (sample_run live_again_while_polling (sample_page "http:")))
       ++ [poll_request].
Proof.
  assert (E : nth_error (intervals (browser (sample_run live_again_while_polling
                                              (sample_page "http:")))) 0
              = Some (poll_timer initialState)) by (vm_compute; reflexivity).
  split; [vm_compute; reflexivity | split; [exact E |]].
  cbn [step]. rewrite E. cbn [active poll_timer callback call_callback].
  apply first_render_poll_always_fetches.
Qed.

(** C7.  The user is recording, polling runs and reconnects are pending
    when the page is left.  After the cleanup the capture is still live,
    the polling interval still active and the reconnects still pending;
    when one of them fires, two new sockets start connecting.  Had the user
    stopped the recording instead, the capture would have ended. *)
Theorem unmount_leaves_capture_and_timers :
  lifecycle (sample_run leave_while_recording (sample_page "http:")) = Unmounted
  /\ audioStream (state (sample_run leave_while_recording (sample_page "http:"))) = Some 0
  /\ streams (browser (sample_run leave_while_recording (sample_page "http:"))) = [Live]
  /\ intervals (browser (sample_run leave_while_recording (sample_page "http:")))
     = [poll_timer initialState]
  /\ map active (timeouts (browser (sample_run leave_while_recording (sample_page "http:"))))
     = [false; false; true; true; true]
  /\ map readyState
       (sockets (browser (sample_run (leave_while_recording ++ [TimeoutFires 2])
                            (sample_page "http:"))))
     = [CLOSED; CLOSED; CLOSED; CLOSED; CLOSED; CLOSED; CONNECTING; CONNECTING]
  /\ streams (browser (sample_run stop_while_recording (sample_page "http:"))) = [Ended].
Proof. vm_compute. repeat split. Qed.



(** ** The theorems at sample inputs *)


(** An HTML error page in place of a message. *)
Lemma malformed_message_dropped_witness :
  JSONText.parse (toString (TextData "<html>502 Bad Gateway</html>")) = None
  /\ fst (handleTranscriptionMessage JSONText.parse
            (TextData "<html>502 Bad Gateway</html>") (sample_page "http:")) = Ok tt
  /\ transcripts (state (snd (handleTranscriptionMessage JSONText.parse
                                (TextData "<html>502 Bad Gateway</html>")
                                (sample_page "http:"))))
     = transcripts (state (sample_page "http:")).
Proof.
  split; [vm_compute; reflexivity |].
  destruct (malformed_message_dropped JSONText.parse
              (TextData "<html>502 Bad Gateway</html>") (sample_page "http:"))
    as [R [T _]]; [vm_compute; reflexivity |].
  split; [exact R | exact T].
Defined.



(** ** The model at work *)

(** The reader follows the JSON grammar. *)
Example parse_object :
  JSONText.parse (payload " { 'a' : [1, -2.50e-3, null, true], 'b' : 'x\ny', 'a' : {} } ")
  = Some (JObject [("a", JArray [JNumber 1 0; JNumber (-250) (-5); JNull; JBool true]);
                   ("b", JString (String "x" (String "010" (String "y" EmptyString))));
                   ("a", JObject [])]).
Proof. vm_compute. reflexivity. Qed.

Example parse_rejects :
  map JSONText.parse
    ["01"; "[1,]"; "1."; "-"; "nul"; "{'a':1}"; "[object Blob]"; EmptyString;
     payload "{'a':1,}"; payload "'\x'"; payload "[1 2]"]
  = repeat None 11.
Proof. vm_compute. reflexivity. Qed.

(** A later duplicate key wins, and a number too small for a double is
    zero, hence falsy. *)
Example duplicate_key_and_underflow :
  option_map (fun data => (property data "a", truthy (property data "n")))
    (JSONText.parse (payload "{'a':1,'n':1e-400,'a':2}"))
  = Some (val (JNumber 2 0), false).
Proof. vm_compute. reflexivity. Qed.

(** The writer escapes what [JSON.stringify] escapes, and the reader reads
    it back. *)
Example stringify_control_message :
  JSONText.stringify (JObject [("message", JString (payload "say 'hi'\"))])
  = payload "{'message':'say \'hi\'\\'}"
  /\ JSONText.parse (JSONText.stringify (JObject [("message", JString (payload "say 'hi'\"))]))
     = Some (JObject [("message", JString (payload "say 'hi'\"))]).
Proof. vm_compute. split; reflexivity. Qed.

(** A message whose second segment is [null]: the first record is kept,
    the [TypeError] ends the handler, and the generated output is lost. *)
Example null_segment_stops_the_message :
  transcripts (state (sample_run
    [Mount; SocketOpen 0;
     SocketMessage 0
       (TextData (payload "{'segments':[{'text':'one'},null,{'text':'three'}],'llm_output':['out']}"))
       (Ok tt)]
    (sample_page "http:")))
  = [{| type := unrevised; content := val (JString "one"); timestamp := 1700000000000 |}].
Proof. vm_compute. reflexivity. Qed.

(** The stream controls: an empty URL only shows a toast; with a URL the
    command goes out on the primary socket once it is open, and to the
    message endpoint before. *)
Example start_streaming_on_the_page :
  output (sample_run [Mount; SelectInput "rtsp"; ClickStartStreaming (Throw TypeError)]
            (sample_page "http:"))
  = {| network := [];
       toasts := [{| title := "Error"; description := "Please enter a stream URL";
                     variant := Some "destructive" |}];
       console := [] |}
  /\ network (output (sample_run
       [Mount; SocketOpen 0; SelectInput "rtsp"; ChangeStreamUrl "example.com/stream";
        ClickStartStreaming (Throw TypeError)]
       (sample_page "http:")))
     = [SocketSend 0 (TextData "START_STREAMING:example.com/stream")]
  /\ network (output (sample_run
       [Mount; SelectInput "hls"; ChangeStreamUrl "example.com/stream";
        ClickStartStreaming (Ok {| status := 200; json := Ok (JObject []) |})]
       (sample_page "http:")))
     = [HttpRequest {| method := "POST"; path := "/api/send-message";
                       body := Some (payload
                                 "{'message':'START_STREAMING:example.com/stream'}") |}].
Proof. vm_compute. repeat split. Qed.

(** A denied microphone: one toast, no capture, no recording, nothing sent. *)
Example microphone_denied :
  let w := sample_run [Mount; ClickRecord (Throw (DOMException "NotAllowedError")) (Ok
             {| status := 200; json := Ok (JObject []) |})] (sample_page "http:") in
  isRecording (state w) = false
  /\ audioStream (state w) = None
  /\ streams (browser w) = []
  /\ network (output w) = []
  /\ toasts (output w)
     = [{| title := "Microphone Error"; description := "Failed to access microphone";
           variant := Some "destructive" |}].
Proof. vm_compute. repeat split. Qed.

(** * Further properties of the component *)

(** ** What every task preserves

    A reflexive and transitive relation that the handlers and the
    bookkeeping of the event loop preserve holds between the world before
    and after every task, hence along every run. *)
Section StepFrames.

Variable JSON_parse : string -> option JSON.
Variable JSON_stringify : JSON -> string.
Variable R : World -> World -> Prop.
Hypothesis R_refl : forall w, R w w.
Hypothesis R_trans : forall w1 w2 w3, R w1 w2 -> R w2 w3 -> R w1 w3.

Hypothesis R_lifecycle : forall v w, R w (with_lifecycle v w).
Hypothesis R_refs : forall f, preserves R (modify (upd_refs (with_audioRef f))).
Hypothesis R_readyState : forall s v, preserves R (update_socket s (with_readyState v)).
Hypothesis R_fired : forall t timer,
  preserves R (modify (upd_browser (fun b =>
    with_timeouts (replace_nth t (with_active false timer) (timeouts b)) b))).
Hypothesis R_mountEffect : forall snap, preserves R (mountEffect snap).
Hypothesis R_mountCleanup : forall snap, preserves R (mountCleanup snap).
Hypothesis R_onopen : forall snap, preserves R (onopen_handler snap).
Hypothesis R_transcription : forall d, preserves R (handleTranscriptionMessage JSON_parse d).
Hypothesis R_audio : forall d played, preserves R (handleAudioMessage d played).
Hypothesis R_error : preserves R handleWebSocketError.
Hypothesis R_close : forall snap, preserves R (handleWebSocketClose snap).
Hypothesis R_connect : forall snap, preserves R (connectWebSocket snap).
Hypothesis R_poll : forall snap fetched,
  preserves R (poll JSON_parse JSON_stringify snap fetched).
Hypothesis R_chunk : forall chunk, preserves R (ondataavailable chunk).
Hypothesis R_input : forall v, preserves R (setInputType v).
Hypothesis R_start : forall granted fetched,
  preserves R (startRecording JSON_stringify granted fetched).
Hypothesis R_stop : forall snap fetched,
  preserves R (stopRecording JSON_stringify snap fetched).
Hypothesis R_url : forall v, preserves R (handleStreamUrlChange v).
Hypothesis R_streaming : forall snap fetched,
  preserves R (handleStartStreaming JSON_stringify snap fetched).

Lemma call_handler_preserves (h : option Handler) (d : MessageData) (played : Result unit) :
  preserves R (call_handler JSON_parse h d played).
Proof.
  destruct h as [[snap | snap | snap | snap | snap] |]; cbn [call_handler];
    first [ apply preserves_spawn; solve [auto]
          | apply preserves_ret; exact R_refl
          | solve [auto] ].
Qed.

Lemma call_callback_preserves (cb : Callback) (fetched : Result Response) :
  preserves R (call_callback JSON_parse JSON_stringify cb fetched).
Proof. destruct cb; cbn [call_callback]; auto. Qed.

Lemma step_preserves (w : World) (e : Event) :
  R w (step JSON_parse JSON_stringify w e).
Proof.
  destruct e; cbn [step].
  - destruct (lifecycle w); try apply R_refl.
    eapply R_trans; [apply R_lifecycle |].
    unfold exec. apply preserves_bind; auto.
  - destruct (lifecycle w) as [| snap |]; try apply R_refl.
    eapply R_trans; [apply R_lifecycle |].
    unfold exec. apply preserves_bind; auto.
  - destruct (nth_error (sockets (browser w)) s) as [sock |]; [| apply R_refl].
    destruct (readyState sock); try apply R_refl.
    unfold exec. apply preserves_bind; auto. intros _. apply call_handler_preserves.
  - destruct (nth_error (sockets (browser w)) s) as [sock |]; [| apply R_refl].
    destruct (readyState sock); try apply R_refl. apply call_handler_preserves.
  - destruct (nth_error (sockets (browser w)) s) as [sock |]; [| apply R_refl].
    destruct (readyState sock); try apply R_refl; apply call_handler_preserves.
  - destruct (nth_error (sockets (browser w)) s) as [sock |]; [| apply R_refl].
    destruct (readyState sock); try apply R_refl;
      (unfold exec; apply preserves_bind; auto; intros _; apply call_handler_preserves).
  - destruct (nth_error (timeouts (browser w)) t) as [timer |]; [| apply R_refl].
    destruct (active timer); [| apply R_refl].
    unfold exec. apply preserves_bind; auto. intros _. apply call_callback_preserves.
  - destruct (nth_error (intervals (browser w)) i) as [timer |]; [| apply R_refl].
    destruct (active timer); [| apply R_refl]. apply call_callback_preserves.
  - destruct (nth_error (recorders (browser w)) r) as [stream |]; [| apply R_refl].
    destruct (nth_error (streams (browser w)) stream) as [[] |]; try apply R_refl.
    apply R_chunk.
  - destruct (is_mounted w); [apply R_input | apply R_refl].
  - destruct (is_mounted w && (inputType (state w) =? "microphone")); [| apply R_refl].
    destruct (isRecording (state w)); [apply R_stop | apply R_start].
  - destruct (is_mounted w && stream_input w); [apply R_url | apply R_refl].
  - destruct (is_mounted w && stream_input w); [apply R_streaming | apply R_refl].
Qed.

Lemma run_preserves (trace : list Event) (w : World) :
  R w (run JSON_parse JSON_stringify trace w).
Proof.
  revert w. induction trace as [| e rest IH]; intros w; [apply R_refl |].
  rewrite run_cons. eapply R_trans; [apply step_preserves | apply IH].
Qed.

End StepFrames.

(** Opens the handlers of the component down to the primitive steps. *)
Ltac open_component :=
  repeat (progress unfold
    mountEffect, mountCleanup, onopen_handler, handleAudioMessage, playAudio,
    handleWebSocketError, handleWebSocketClose, startPolling, connectWebSocket, poll,
    handleTranscriptionMessage, ondataavailable, startRecording, stopRecording,
    stopAudioStream, handleStreamUrlChange, handleStartStreaming, sendMessage,
    socket_close, fetch, getUserMedia, readyState_of, parse_or_throw).

(** ** The transcript log only grows *)





Section LogGrows.

Variable JSON_parse : string -> option JSON.
Variable JSON_stringify : JSON -> string.


End LogGrows.

(** ** The reconnect counter stays within its ceiling *)

Lemma attempts_bounded_refl (w : World) : attempts_bounded w w.
Proof. intros H; exact H. Qed.

Lemma attempts_bounded_trans (w1 w2 w3 : World) :
  attempts_bounded w1 w2 -> attempts_bounded w2 w3 -> attempts_bounded w1 w3.
Proof. unfold attempts_bounded. auto. Qed.

Lemma handleWebSocketClose_attempts_bounded (snap : State) :
  preserves attempts_bounded (handleWebSocketClose snap).
Proof.
  intros w H.
  destruct (Nat.lt_ge_cases (reconnectAttemptsRef (refs w)) maxReconnectAttempts) as [L | G].
  - destruct (close_below_ceiling snap w L) as [_ [A _]].
    unfold exec in A. rewrite A. exact L.
  - destruct (close_at_ceiling snap w G) as [_ [A _]].
    unfold exec in A. rewrite A. exact H.
Qed.

Ltac attempts_leaf :=
  intros ?w ?H;
  first [ exact H | cbn; unfold maxReconnectAttempts; lia
        | cbn; match goal with |- context [nth_error ?l ?i] => destruct (nth_error l i) end;
          exact H ].

Ltac attempts_frames :=
  lazymatch goal with
  | |- preserves _ (handleWebSocketClose _) => apply handleWebSocketClose_attempts_bounded
  | |- _ =>
      open_component; frames attempts_bounded_refl attempts_bounded_trans; attempts_leaf
  end.

Section AttemptsBounded.

Variable JSON_parse : string -> option JSON.
Variable JSON_stringify : JSON -> string.

(** X2.  The reconnect counter never passes the ceiling of five: if it is
    within the ceiling before a run of events, it is within it after. *)
Theorem reconnect_attempts_bounded (trace : list Event) (w : World) :
  reconnectAttemptsRef (refs w) <= maxReconnectAttempts ->
  reconnectAttemptsRef (refs (run JSON_parse JSON_stringify trace w))
  <= maxReconnectAttempts.
Proof.
  apply (run_preserves JSON_parse JSON_stringify attempts_bounded
           attempts_bounded_refl attempts_bounded_trans);
    intros; try solve [attempts_frames].
  intros H. exact H.
Qed.

End AttemptsBounded.

(** ** A connection attempt *)

Lemma nth_error_middle {A : Type} (l : list A) (x : A) (r : list A) :
  nth_error (l ++ x :: r) (List.length l) = Some x.
Proof. induction l as [| y l IH]; cbn; auto. Qed.

Lemma replace_nth_middle {A : Type} (l : list A) (x y : A) (r : list A) :
  replace_nth (List.length l) y (l ++ x :: r) = l ++ y :: r.
Proof. induction l as [| z l IH]; cbn; [reflexivity | rewrite IH; reflexivity]. Qed.

(** Updating the socket that sits after [l] in the table. *)
Lemma update_socket_middle (n : nat) (l : list WebSocket) (x : WebSocket)
  (r : list WebSocket) (f : WebSocket -> WebSocket) (w : World) :
  sockets (browser w) = l ++ x :: r ->
  n = List.length l ->
  update_socket n f w = (Ok tt, upd_browser (with_sockets (l ++ f x :: r)) w).
Proof.
  intros E ->. unfold update_socket, modify, upd_browser.
  rewrite E, nth_error_middle, replace_nth_middle. reflexivity.
Qed.

Lemma bind_update_socket_middle (n : nat) (l : list WebSocket) (x : WebSocket)
  (r : list WebSocket) (f : WebSocket -> WebSocket) (k : M unit) (w : World) :
  sockets (browser w) = l ++ x :: r ->
  n = List.length l ->
  (update_socket n f ;; k)%monad w = k (upd_browser (with_sockets (l ++ f x :: r)) w).
Proof.
  intros E N. unfold bind. rewrite (update_socket_middle n l x r f w E N). reflexivity.
Qed.

(** X3.  A connection attempt adds exactly two connecting sockets at the end
    of the table, the primary one with all four handlers and the audio one
    with no open handler, puts them into the two refs and sets the status
    to connecting.  The sockets that were there stay as they are (an older
    socket is not closed), and neither the counter nor a timer changes. *)
Theorem connectWebSocket_effect (snap : State) (w : World) :
  sockets (browser (exec (connectWebSocket snap) w))
  = sockets (browser w)
    ++ [primary_socket snap (location_host (browser w));
        audio_socket snap (location_host (browser w))]
  /\ socketRef (refs (exec (connectWebSocket snap) w))
     = Some (List.length (sockets (browser w)))
  /\ audioSocketRef (refs (exec (connectWebSocket snap) w))
     = Some (S (List.length (sockets (browser w))))
  /\ connectionStatus (state (exec (connectWebSocket snap) w)) = connecting
  /\ reconnectAttemptsRef (refs (exec (connectWebSocket snap) w))
     = reconnectAttemptsRef (refs w)
  /\ timeouts (browser (exec (connectWebSocket snap) w)) = timeouts (browser w)
  /\ intervals (browser (exec (connectWebSocket snap) w)) = intervals (browser w).
Proof.
  set (host := location_host (browser w)).
  set (l := sockets (browser w)).
  set (scheme := if isSecure snap then "wss://" else "ws://").
  set (a := {| url := (scheme ++ host ++ "/api/transcription")%string;
               readyState := CONNECTING; onopen := None; onmessage := None;
               onerror := None; onclose := None |}).
  set (b := {| url := (scheme ++ host ++ "/api/tts")%string;
               readyState := CONNECTING; onopen := None; onmessage := None;
               onerror := None; onclose := None |}).
  set (w2 := upd_refs (with_audioSocketRef (Some (List.length (l ++ [a]))))
               (upd_browser (fun br => with_sockets (sockets br ++ [b]) br)
               (upd_refs (with_socketRef (Some (List.length l)))
               (upd_browser (fun br => with_sockets (sockets br ++ [a]) br)
               (upd_state (with_connectionStatus connecting) w))))).
  assert (E : exec (connectWebSocket snap) w
              = snd ((update_socket (List.length l) (with_onopen (OnOpen snap)) ;;
                      update_socket (List.length l)
                        (with_onmessage (HandleTranscriptionMessage snap)) ;;
                      update_socket (List.length (l ++ [a]))
                        (with_onmessage (HandleAudioMessage snap)) ;;
                      update_socket (List.length l)
                        (with_onerror (HandleWebSocketError snap)) ;;
                      update_socket (List.length (l ++ [a]))
                        (with_onerror (HandleWebSocketError snap)) ;;
                      update_socket (List.length l)
                        (with_onclose (HandleWebSocketClose snap)) ;;
                      update_socket (List.length (l ++ [a]))
                        (with_onclose (HandleWebSocketClose snap)))%monad w2))
    by reflexivity.
  rewrite E. clear E.
  assert (S2 : sockets (browser w2) = l ++ a :: [b]).
  { cbn. fold l. rewrite <- app_assoc. reflexivity. }
  assert (La : forall x : WebSocket, List.length (l ++ [a]) = List.length (l ++ [x])).
  { intros x. rewrite !length_app. reflexivity. }
  assert (As : forall x y : WebSocket, l ++ [x; y] = (l ++ [x]) ++ [y]).
  { intros x y. rewrite <- app_assoc. reflexivity. }
  rewrite (bind_update_socket_middle _ l _ [b] _ _ w2 S2 eq_refl).
  rewrite (bind_update_socket_middle _ l _ [b]) by reflexivity.
  rewrite (bind_update_socket_middle _ (l ++ [_]) b []) by (cbn; auto).
  rewrite (bind_update_socket_middle _ l _ [_]) by (cbn; auto using eq_sym).
  rewrite (bind_update_socket_middle _ (l ++ [_]) _ []) by (cbn; auto).
  rewrite (bind_update_socket_middle _ l _ [_]) by (cbn; auto using eq_sym).
  rewrite (update_socket_middle _ (l ++ [_]) _ []) by (cbn; auto).
  cbn. rewrite <- app_assoc. rewrite length_app. cbn. rewrite Nat.add_1_r.
  repeat split.
Qed.

(** ** Sending a control message *)

Lemma output_only_refl (w : World) : output_only w w.
Proof. repeat split. Qed.

Lemma output_only_trans (w1 w2 w3 : World) :
  output_only w1 w2 -> output_only w2 w3 -> output_only w1 w3.
Proof.
  unfold output_only. intros [L1 [S1 [R1 B1]]] [L2 [S2 [R2 B2]]].
  repeat split; congruence.
Qed.

Ltac output_frames :=
  open_component; frames output_only_refl output_only_trans;
  intros ?w; repeat split.

Section ControlMessages.

Variable JSON_stringify : JSON -> string.

Lemma sendMessage_output_only (message : string) (fetched : Result Response) :
  preserves output_only (sendMessage JSON_stringify message fetched).
Proof. output_frames. Qed.

(** The fallback branch of [sendMessage], from the request on. *)
Lemma sendMessage_fallback (message : string) (fetched : Result Response) (w : World) :
  primary_open w = false ->
  output (snd (sendMessage JSON_stringify message fetched w))
  = {| network := network (output w)
                  ++ [HttpRequest {| method := "POST"; path := "/api/send-message";
                                     body := Some (JSON_stringify
                                       (JObject [("message", JString message)])) |}];
       toasts := toasts (output w)
                 ++ (if delivered fetched then [] else [send_error_toast]);
       console := console (output w)
                  ++ [if delivered fetched then "Message sent successfully:"
                      else "Error sending message:"] |}.
Proof.
  unfold primary_open, sendMessage, readyState_of, bind, gets. cbn [fst snd].
  intros H.
  assert (P : forall w0 : World,
    output (snd (try_catch
      (response <- fetch {| method := "POST"; path := "/api/send-message";
                            body := Some (JSON_stringify
                                            (JObject [("message", JString message)])) |}
                         fetched ;;
       (if negb (ok response)
        then throw (Error ("HTTP error! status: "
                             ++ NilZero.string_of_uint (Nat.to_uint (status response)))%string)
        else ret tt) ;;
       data <- await (json response) ;;
       console_log "Message sent successfully:")
      (fun error =>
         console_error "Error sending message:" ;;
         toast {| title := "Error"; description := "Failed to send message";
                  variant := Some "destructive" |}) w0))
    = {| network := network (output w0)
                    ++ [HttpRequest {| method := "POST"; path := "/api/send-message";
                                       body := Some (JSON_stringify
                                         (JObject [("message", JString message)])) |}];
         toasts := toasts (output w0)
                   ++ (if delivered fetched then [] else [send_error_toast]);
         console := console (output w0)
                    ++ [if delivered fetched then "Message sent successfully:"
                        else "Error sending message:"] |}).
  { intros w0. unfold try_catch, fetch, await, modify, bind, delivered. cbn.
    destruct fetched as [response | e]; cbn; [| reflexivity].
    destruct (ok response); cbn; [| reflexivity].
    destruct (json response); cbn; rewrite ?app_nil_r; reflexivity. }
  destruct (socketRef (refs w)) as [s |]; [| apply P].
  destruct (nth_error (sockets (browser w)) s) as [sock |]; cbn [option_map]; [| apply P].
  destruct (readyState sock); try discriminate H; apply P.
Qed.

(** The socket branch of [sendMessage]. *)
Lemma sendMessage_on_socket (message : string) (fetched : Result Response) (w : World)
  (s : nat) :
  socketRef (refs w) = Some s ->
  primary_open w = true ->
  output (snd (sendMessage JSON_stringify message fetched w))
  = with_network (network (output w) ++ [SocketSend s (TextData message)]) (output w).
Proof.
  unfold primary_open, sendMessage, readyState_of, bind, gets. cbn [fst snd].
  intros -> H.
  destruct (nth_error (sockets (browser w)) s) as [sock |]; [| discriminate H].
  cbn [option_map]. destruct (readyState sock); try discriminate H. reflexivity.
Qed.

Lemma sendMessage_network_and_toasts (message : string) (fetched : Result Response)
  (w : World) :
  network (output (snd (sendMessage JSON_stringify message fetched w)))
  = network (output w) ++ [control_frame JSON_stringify w message]
  /\ toasts (output (snd (sendMessage JSON_stringify message fetched w)))
     = toasts (output w)
       ++ (if primary_open w || delivered fetched then [] else [send_error_toast]).
Proof.
  destruct (primary_open w) eqn:P.
  - assert (exists s, socketRef (refs w) = Some s) as [s Hs].
    { unfold primary_open in P. destruct (socketRef (refs w)); [eauto | discriminate]. }
    rewrite (sendMessage_on_socket message fetched w s Hs P).
    unfold control_frame. rewrite Hs, P. cbn. rewrite app_nil_r. split; reflexivity.
  - rewrite (sendMessage_fallback message fetched w P).
    unfold control_frame. rewrite P. cbn.
    destruct (socketRef (refs w)); split; reflexivity.
Qed.

(** X4.  A control message goes out exactly once: as a text frame on the
    primary socket when that socket is open, and then nothing else happens;
    otherwise as a POST to the message endpoint, and then the user sees the
    error toast exactly when the request failed, was answered with a status
    outside the 200s, or was answered with a body that is not JSON. *)
Theorem sendMessage_effect (message : string) (fetched : Result Response) (w : World) :
  network (output (snd (sendMessage JSON_stringify message fetched w)))
  = network (output w) ++ [control_frame JSON_stringify w message]
  /\ toasts (output (snd (sendMessage JSON_stringify message fetched w)))
     = toasts (output w)
       ++ (if primary_open w || delivered fetched then [] else [send_error_toast])
  /\ state (snd (sendMessage JSON_stringify message fetched w)) = state w
  /\ browser (snd (sendMessage JSON_stringify message fetched w)) = browser w.
Proof.
  destruct (sendMessage_output_only message fetched w) as [_ [St [_ Br]]].
  destruct (sendMessage_network_and_toasts message fetched w) as [N T].
  repeat split; assumption.
Qed.

End ControlMessages.

(** ** The capture controller: the microphone *)

Section Microphone.

Variable JSON_stringify : JSON -> string.

(** X5.  When the microphone is refused (or there is none), recording does
    not start: no state cell changes, no capture or recorder exists
    afterwards that did not before, nothing goes out on the network, and the
    user sees exactly one toast.  The handler itself does not throw. *)
Theorem startRecording_denied (e : Exn) (fetched : Result Response) (w : World) :
  fst (startRecording JSON_stringify (Throw e) fetched w) = Ok tt
  /\ state (snd (startRecording JSON_stringify (Throw e) fetched w)) = state w
  /\ browser (snd (startRecording JSON_stringify (Throw e) fetched w)) = browser w
  /\ network (output (snd (startRecording JSON_stringify (Throw e) fetched w)))
     = network (output w)
  /\ toasts (output (snd (startRecording JSON_stringify (Throw e) fetched w)))
     = toasts (output w) ++ [microphone_error_toast].
Proof. repeat split. Qed.

(** What a granted start does, step by step. *)
Lemma startRecording_granted_world (fetched : Result Response) (w : World) :
  startRecording JSON_stringify (Ok tt) fetched w
  = (Ok tt,
     upd_browser (fun b => with_recorders
                   (recorders b ++ [List.length (streams (browser w))]) b)
       (snd (sendMessage JSON_stringify "START_RECORDING" fetched
          (upd_state (with_isRecording true)
            (upd_state (with_audioStream (Some (List.length (streams (browser w)))))
              (upd_browser (fun b => with_streams (streams b ++ [Live]) b) w)))))).
Proof. reflexivity. Qed.

(** X6.  When the microphone is granted, a new live capture is held in
    [audioStream], recording is marked active, a recorder is attached to the
    capture, and the control message [START_RECORDING] goes out exactly
    once. *)
Theorem startRecording_granted (fetched : Result Response) (w : World) :
  audioStream (state (snd (startRecording JSON_stringify (Ok tt) fetched w)))
  = Some (List.length (streams (browser w)))
  /\ isRecording (state (snd (startRecording JSON_stringify (Ok tt) fetched w))) = true
  /\ streams (browser (snd (startRecording JSON_stringify (Ok tt) fetched w)))
     = streams (browser w) ++ [Live]
  /\ recorders (browser (snd (startRecording JSON_stringify (Ok tt) fetched w)))
     = recorders (browser w) ++ [List.length (streams (browser w))]
  /\ network (output (snd (startRecording JSON_stringify (Ok tt) fetched w)))
     = network (output w) ++ [control_frame JSON_stringify w "START_RECORDING"].
Proof.
  rewrite startRecording_granted_world. cbn [snd].
  set (w1 := upd_state (with_isRecording true) _).
  destruct (sendMessage_output_only JSON_stringify "START_RECORDING" fetched w1)
    as [_ [St [_ Br]]].
  destruct (sendMessage_network_and_toasts JSON_stringify "START_RECORDING" fetched w1)
    as [N _].
  unfold upd_browser at 1 2 3 4 5. cbn [state browser output recorders streams with_recorders].
  rewrite St, Br, N. repeat split.
Qed.

End Microphone.

Section StopAndChunks.

Variable JSON_stringify : JSON -> string.

Lemma stopRecording_world (snap : State) (fetched : Result Response) (w : World) :
  stopRecording JSON_stringify snap fetched w
  = (Ok tt,
     snd (sendMessage JSON_stringify "STOP_RECORDING" fetched
            (upd_state (with_isRecording false)
               match audioStream snap with
               | Some stream =>
                   upd_state (with_audioStream None)
                     (upd_browser (fun b =>
                        with_streams (replace_nth stream Ended (streams b)) b) w)
               | None => w
               end))).
Proof. unfold stopRecording, stopAudioStream. destruct (audioStream snap); reflexivity. Qed.

(** X7.  Stopping, by the handler of a render that saw the capture
    [stream]: the capture's tracks end, [audioStream] is cleared, recording
    is marked inactive and [STOP_RECORDING] goes out exactly once.  By a
    render that saw no capture, the stop is harmless: no capture is touched
    and the message still goes out. *)
Theorem stopRecording_effect (snap : State) (fetched : Result Response) (w : World) :
  isRecording (state (snd (stopRecording JSON_stringify snap fetched w))) = false
  /\ audioStream (state (snd (stopRecording JSON_stringify snap fetched w)))
     = match audioStream snap with
       | Some _ => None
       | None => audioStream (state w)
       end
  /\ streams (browser (snd (stopRecording JSON_stringify snap fetched w)))
     = match audioStream snap with
       | Some stream => replace_nth stream Ended (streams (browser w))
       | None => streams (browser w)
       end
  /\ network (output (snd (stopRecording JSON_stringify snap fetched w)))
     = network (output w) ++ [control_frame JSON_stringify w "STOP_RECORDING"].
Proof.
  rewrite stopRecording_world. cbn [snd].
  set (w1 := upd_state (with_isRecording false) _).
  destruct (sendMessage_output_only JSON_stringify "STOP_RECORDING" fetched w1)
    as [_ [St [_ Br]]].
  destruct (sendMessage_network_and_toasts JSON_stringify "STOP_RECORDING" fetched w1)
    as [N _].
  rewrite St, Br, N. subst w1. destruct (audioStream snap); repeat split.
Qed.

(** X8.  A chunk from the recorder is forwarded as one binary frame on the
    primary socket when it is not empty and that socket is open.  In every
    other case it is dropped without a trace: nothing is sent, nothing is
    queued, no request is made and no toast is shown. *)
Theorem ondataavailable_effect (chunk : Blob) (w : World) :
  network (output (snd (ondataavailable chunk w)))
  = network (output w)
    ++ match socketRef (refs w) with
       | Some s =>
           if primary_open w && (0 <? List.length chunk)%nat
           then [SocketSend s (BlobData chunk)] else []
       | None => []
       end
  /\ toasts (output (snd (ondataavailable chunk w))) = toasts (output w)
  /\ state (snd (ondataavailable chunk w)) = state w
  /\ browser (snd (ondataavailable chunk w)) = browser w.
Proof.
  unfold ondataavailable, primary_open, readyState_of, bind, gets. cbn [fst snd].
  destruct (socketRef (refs w)) as [s |]; cbn; [| rewrite app_nil_r; repeat split].
  destruct (nth_error (sockets (browser w)) s) as [sock |]; cbn;
    [| rewrite app_nil_r; repeat split].
  destruct (readyState sock); destruct chunk; cbn; rewrite ?app_nil_r; repeat split.
Qed.

End StopAndChunks.

(** ** The audio channel *)


(** ** The message endpoint and its client *)

Section MessageEndpoint.

Variable JSON_parse : string -> option JSON.
Variable JSON_stringify : JSON -> string.

Lemma send_message_route_POST_cases (body : option string) :
  ((exists text data,
      body = Some text /\ JSON_parse text = Some data /\ is_null data = false)
   /\ response (send_message_route_POST JSON_parse body)
      = {| status := 200;
           json := Ok (JObject [("success", JBool true);
                                ("message", JString "Message received and processed")]) |})
  \/ (~ (exists text data,
          body = Some text /\ JSON_parse text = Some data /\ is_null data = false)
      /\ response (send_message_route_POST JSON_parse body)
         = {| status := 500;
              json := Ok (JObject [("error", JString "Internal Server Error")]) |}).
Proof.
  unfold send_message_route_POST. destruct body as [text |].
  - destruct (JSON_parse text) as [data |] eqn:E.
    + destruct (is_null data) eqn:N.
      * right. destruct data; try discriminate N. split; [| reflexivity].
        intros [t [d [Hb [Hp Hn]]]]. injection Hb as <-. rewrite E in Hp.
        injection Hp as <-. discriminate Hn.
      * left. split; [exists text, data; auto |].
        destruct data; try discriminate N; reflexivity.
    + right. split; [| reflexivity].
      intros [t [d [Hb [Hp Hn]]]]. injection Hb as <-. rewrite E in Hp. discriminate Hp.
  - right. split; [| reflexivity]. intros [t [d [Hb _]]]. discriminate Hb.
Qed.

(** X10.  The message endpoint acknowledges with status 200 exactly the
    requests whose body is JSON other than [null]; a missing body, a body
    that is not JSON and the body [null] are answered with status 500 and
    an error object.  (It does not look at the message itself: any other
    JSON value is acknowledged.) *)
Theorem send_message_route_POST_status (body : option string) :
  (ok (response (send_message_route_POST JSON_parse body)) = true
   <-> exists text data,
         body = Some text /\ JSON_parse text = Some data /\ is_null data = false)
  /\ (ok (response (send_message_route_POST JSON_parse body)) = false ->
      response (send_message_route_POST JSON_parse body)
      = {| status := 500;
           json := Ok (JObject [("error", JString "Internal Server Error")]) |})
  /\ (ok (response (send_message_route_POST JSON_parse body)) = true ->
      status (response (send_message_route_POST JSON_parse body)) = 200
      /\ exists reply,
           json (response (send_message_route_POST JSON_parse body)) = Ok reply
           /\ property reply "success" = val (JBool true)).
Proof.
  destruct (send_message_route_POST_cases body) as [[A ->] | [A ->]].
  - split; [split; [intros _; exact A | reflexivity] |].
    split; [intros H; discriminate H |].
    intros _. split; [reflexivity |]. eexists. split; reflexivity.
  - split; [split; [intros H; discriminate H | intros H; contradiction] |].
    split; [reflexivity | intros H; discriminate H].
Qed.

(** X11.  The fallback of [sendMessage] against the message endpoint: when
    the primary socket is not open and the runtime reads the body the
    client wrote back as a JSON value other than [null], the endpoint
    acknowledges, the request is the only thing on the network, and the
    user sees no error. *)
Theorem sendMessage_against_endpoint (message : string) (data : JSON) (w : World) :
  primary_open w = false ->
  JSON_parse (JSON_stringify (JObject [("message", JString message)])) = Some data ->
  is_null data = false ->
  let body := JSON_stringify (JObject [("message", JString message)]) in
  let answer := response (send_message_route_POST JSON_parse (Some body)) in
  status answer = 200
  /\ network (output (snd (sendMessage JSON_stringify message (Ok answer) w)))
     = network (output w)
       ++ [HttpRequest {| method := "POST"; path := "/api/send-message";
                          body := Some body |}]
  /\ toasts (output (snd (sendMessage JSON_stringify message (Ok answer) w)))
     = toasts (output w)
  /\ console (output (snd (sendMessage JSON_stringify message (Ok answer) w)))
     = console (output w) ++ ["Message sent successfully:"].
Proof.
  intros P Hparse Hnull body answer.
  assert (A : answer = {| status := 200;
                          json := Ok (JObject [("success", JBool true);
                                               ("message",
                                                JString "Message received and processed")]) |}).
  { subst answer body. unfold send_message_route_POST. rewrite Hparse.
    destruct data; try discriminate Hnull; reflexivity. }
  rewrite (sendMessage_fallback JSON_stringify message (Ok answer) w P).
  rewrite A. cbn. rewrite app_nil_r. repeat split.
Qed.

End MessageEndpoint.

(** ** A polling tick in detail *)

Lemma same_toasts_refl (w : World) : same_toasts w w.
Proof. reflexivity. Qed.

Lemma same_toasts_trans (w1 w2 w3 : World) :
  same_toasts w1 w2 -> same_toasts w2 w3 -> same_toasts w1 w3.
Proof. unfold same_toasts. congruence. Qed.

Section PollingTick.

Variable JSON_parse : string -> option JSON.
Variable JSON_stringify : JSON -> string.

Lemma handleTranscriptionMessage_same_toasts (d : MessageData) :
  preserves same_toasts (handleTranscriptionMessage JSON_parse d).
Proof.
  open_component. frames same_toasts_refl same_toasts_trans; intros w; reflexivity.
Qed.

(** The tick of a closure that saw a status other than connected, after its
    request went out. *)
Lemma poll_unfolded (snap : State) (fetched : Result Response) (w : World) :
  connectionStatus snap <> connected ->
  poll JSON_parse JSON_stringify snap fetched w
  = try_catch
      (response <- await fetched ;;
       data <- await (json response) ;;
       timestamp <- Date_now ;;
       segments <- get (val data) "segments" ;;
       condition <- (if truthy segments then ret segments
                     else get (val data) "llm_output") ;;
       if truthy condition then
         spawn (handleTranscriptionMessage JSON_parse (TextData (JSON_stringify data)))
       else ret tt)
      (fun error =>
         console_error "Error polling transcripts:" ;;
         toast polling_error_toast)
      (upd_output (fun o => with_network (network o ++ [poll_request]) o) w).
Proof.
  intros H. unfold poll.
  destruct (connectionStatus snap); try contradiction; reflexivity.
Qed.

Lemma poll_network (snap : State) (fetched : Result Response) (w : World) :
  connectionStatus snap <> connected ->
  network (output (snd (poll JSON_parse JSON_stringify snap fetched w)))
  = network (output w) ++ [poll_request].
Proof.
  intros H. unfold poll.
  destruct (connectionStatus snap); try contradiction; cbn [ConnectionStatus_eqb negb];
    (apply fetch_then_quiet;
     [ intros r; frames same_network_refl same_network_trans;
       first [apply handleTranscriptionMessage_same_network | intros w0; reflexivity]
     | intros e; frames same_network_refl same_network_trans; intros w0; reflexivity ]).
Qed.

(** X12.  A polling tick of a closure that saw a status other than
    connected always sends its request.  When the request fails, or the
    answer is not JSON, or the answer is [null], the user sees the polling
    toast and the transcript log is untouched; in every other case no toast
    is shown. *)
Theorem poll_failure_is_shown (snap : State) (fetched : Result Response) (w : World) :
  connectionStatus snap <> connected ->
  network (output (snd (poll JSON_parse JSON_stringify snap fetched w)))
  = network (output w) ++ [poll_request]
  /\ toasts (output (snd (poll JSON_parse JSON_stringify snap fetched w)))
     = toasts (output w) ++ (if poll_failed fetched then [polling_error_toast] else [])
  /\ (poll_failed fetched = true ->
      transcripts (state (snd (poll JSON_parse JSON_stringify snap fetched w)))
      = transcripts (state w)).
Proof.
  intros H. split; [apply poll_network, H |].
  rewrite (poll_unfolded snap fetched w H).
  set (w1 := upd_output _ w).
  assert (Q : forall (data' : JSON) (w2 : World),
             toasts (output w2) = toasts (output w) ->
             toasts (output (snd (spawn (handleTranscriptionMessage JSON_parse
                                           (TextData (JSON_stringify data'))) w2)))
             = toasts (output w) ++ []).
  { intros data' w2 E. unfold spawn. cbn [snd].
    rewrite (handleTranscriptionMessage_same_toasts _ w2), app_nil_r. exact E. }
  unfold try_catch, bind, await.
  destruct fetched as [[st [data | e]] | e]; cbn [json poll_failed];
    try (cbn; split; reflexivity).
  destruct data as [| bb | mm ee | str | l | members];
    try (cbn; rewrite ?app_nil_r; split;
         [reflexivity | intros F; try discriminate F; reflexivity]).
  cbn [Date_now get ret fst snd].
  destruct (truthy (own_property "segments" members)) eqn:Ts; cbn [ret]; rewrite ?Ts.
  - split; [apply Q; reflexivity | intros F; discriminate F].
  - cbn [get ret].
    destruct (truthy (own_property "llm_output" members)).
    + split; [apply Q; reflexivity | intros F; discriminate F].
    + cbn. rewrite app_nil_r. split; [reflexivity | intros F; discriminate F].
Qed.


End PollingTick.

(** ** User actions on the page *)

Section UserActions.

Variable JSON_parse : string -> option JSON.
Variable JSON_stringify : JSON -> string.

(** X14.  On the mounted page with a stream input selected, typing a URL
    that is not empty and pressing Start Streaming sends exactly one control
    message, [START_STREAMING:] followed by the URL just typed: the button's
    handler is the one of the latest render. *)
Theorem typed_url_is_streamed (u : string) (fetched : Result Response) (w : World) :
  is_mounted w = true ->
  stream_input w = true ->
  u <> EmptyString ->
  streamUrl (state (run JSON_parse JSON_stringify
                      [ChangeStreamUrl u; ClickStartStreaming fetched] w)) = u
  /\ network (output (run JSON_parse JSON_stringify
                        [ChangeStreamUrl u; ClickStartStreaming fetched] w))
     = network (output w)
       ++ [control_frame JSON_stringify w ("START_STREAMING:" ++ u)].
Proof.
  intros M I U.
  rewrite run_cons. cbn [step]. rewrite M, I. cbn [andb].
  assert (M1 : is_mounted (exec (handleStreamUrlChange u) w) = true) by exact M.
  assert (I1 : stream_input (exec (handleStreamUrlChange u) w) = true) by exact I.
  assert (U1 : streamUrl (state (exec (handleStreamUrlChange u) w)) = u) by reflexivity.
  assert (C1 : forall m, control_frame JSON_stringify (exec (handleStreamUrlChange u) w) m
                         = control_frame JSON_stringify w m) by reflexivity.
  assert (N1 : network (output (exec (handleStreamUrlChange u) w)) = network (output w))
    by reflexivity.
  remember (exec (handleStreamUrlChange u) w) as w1 eqn:E1.
  rewrite run_cons. cbn [step run fold_left]. rewrite M1, I1. cbn [andb].
  unfold exec, handleStartStreaming. rewrite U1.
  assert (E : (u =? EmptyString) = false).
  { apply String.eqb_neq. exact U. }
  rewrite E. unfold spawn. cbn [snd].
  destruct (sendMessage_output_only JSON_stringify ("START_STREAMING:" ++ u) fetched w1)
    as [_ [St _]].
  destruct (sendMessage_network_and_toasts JSON_stringify ("START_STREAMING:" ++ u)
              fetched w1) as [N _].
  rewrite St, N, U1, C1, N1. split; reflexivity.
Qed.

(** X15.  On the mounted page with the microphone selected and no
    recording active, pressing the button (microphone granted) and pressing
    it again leaves no recording behind: the capture created by the first
    press is ended by the second, [audioStream] is cleared, recording is
    inactive, and exactly [START_RECORDING] and then [STOP_RECORDING] went
    out. *)
Theorem record_then_stop (f1 f2 : Result Response) (g2 : Result unit) (w : World) :
  is_mounted w = true ->
  inputType (state w) = "microphone" ->
  isRecording (state w) = false ->
  let w' := run JSON_parse JSON_stringify [ClickRecord (Ok tt) f1; ClickRecord g2 f2] w in
  isRecording (state w') = false
  /\ audioStream (state w') = None
  /\ streams (browser w') = streams (browser w) ++ [Ended]
  /\ network (output w')
     = network (output w)
       ++ [control_frame JSON_stringify w "START_RECORDING";
           control_frame JSON_stringify w "STOP_RECORDING"].
Proof.
  intros M I Rec w'.
  assert (Mic : ("microphone" =? "microphone") = true) by reflexivity.
  pose proof (startRecording_granted_world JSON_stringify f1 w) as W1.
  set (w0 := upd_state (with_isRecording true) _) in W1.
  destruct (sendMessage_output_only JSON_stringify "START_RECORDING" f1 w0)
    as [L1 [St1 [R1 B1]]].
  destruct (sendMessage_network_and_toasts JSON_stringify "START_RECORDING" f1 w0)
    as [N1 _].
  remember (snd (startRecording JSON_stringify (Ok tt) f1 w)) as w1 eqn:E1.
  assert (F1 : step JSON_parse JSON_stringify w (ClickRecord (Ok tt) f1) = w1).
  { cbn [step]. rewrite M, I, Rec, Mic. cbn [andb]. unfold exec. symmetry. exact E1. }
  rewrite W1 in E1. cbn [snd] in E1.
  assert (M1 : is_mounted w1 = true).
  { unfold is_mounted. rewrite E1. cbn [lifecycle upd_browser]. rewrite L1. exact M. }
  assert (S1 : state w1 = state w0) by (rewrite E1; cbn; exact St1).
  assert (Br1 : streams (browser w1) = streams (browser w) ++ [Live]).
  { rewrite E1. cbn [browser upd_browser streams with_recorders]. rewrite B1. reflexivity. }
  assert (Nw1 : network (output w1)
                = network (output w) ++ [control_frame JSON_stringify w "START_RECORDING"]).
  { rewrite E1. cbn [output upd_browser]. rewrite N1. reflexivity. }
  assert (C1 : control_frame JSON_stringify w1 "STOP_RECORDING"
               = control_frame JSON_stringify w "STOP_RECORDING").
  { unfold control_frame, primary_open. rewrite E1.
    cbn [refs browser upd_browser sockets with_recorders]. rewrite R1, B1. reflexivity. }
  pose proof (stopRecording_world JSON_stringify (state w0) f2 w1) as W2.
  change (audioStream (state w0)) with (Some (List.length (streams (browser w)))) in W2.
  cbn iota in W2.
  set (w2 := upd_state (with_isRecording false) _) in W2.
  assert (F2 : w' = snd (sendMessage JSON_stringify "STOP_RECORDING" f2 w2)).
  { subst w'. rewrite run_cons, F1, run_cons. cbn [step run fold_left].
    rewrite M1, S1.
    change (inputType (state w0)) with (inputType (state w)).
    change (isRecording (state w0)) with true.
    rewrite I, Mic. cbn [andb]. unfold exec. rewrite W2. reflexivity. }
  destruct (sendMessage_output_only JSON_stringify "STOP_RECORDING" f2 w2)
    as [_ [St2 [_ B2]]].
  destruct (sendMessage_network_and_toasts JSON_stringify "STOP_RECORDING" f2 w2)
    as [N2 _].
  rewrite F2, St2, B2, N2.
  change (control_frame JSON_stringify w2 "STOP_RECORDING")
    with (control_frame JSON_stringify w1 "STOP_RECORDING").
  subst w2. cbn [state browser output upd_state upd_browser isRecording audioStream
                 with_isRecording with_audioStream streams with_streams].
  rewrite Br1, Nw1, C1, replace_nth_middle, <- app_assoc. repeat split.
Qed.

End UserActions.

(** ** Leaving the page *)

Lemma nth_error_replace_nth {A : Type} (i j : nat) (x : A) (l : list A) :
  nth_error (replace_nth i x l) j
  = if (i =? j)%nat then option_map (fun _ => x) (nth_error l j) else nth_error l j.
Proof.
  revert i j. induction l as [| y l IH]; intros i j.
  - destruct j; cbn; destruct (i =? _)%nat; destruct i; reflexivity.
  - destruct i, j; cbn; try reflexivity. apply IH.
Qed.

(** The table after [ref.current?.close()]. *)
Lemma nth_error_after_socket_close (r : option nat) (j : nat) (w : World) :
  nth_error (sockets (browser (snd (socket_close r w)))) j
  = match r with
    | Some s =>
        if (s =? j)%nat then
          option_map (fun sock =>
                        match readyState sock with
                        | CONNECTING | OPEN => with_readyState CLOSING sock
                        | CLOSING | CLOSED => sock
                        end)
                     (nth_error (sockets (browser w)) j)
        else nth_error (sockets (browser w)) j
    | None => nth_error (sockets (browser w)) j
    end.
Proof.
  destruct r as [s |]; [| reflexivity].
  unfold socket_close, update_socket, modify, upd_browser. cbn [snd browser].
  destruct (nth_error (sockets (browser w)) s) as [sock |] eqn:E; cbn [sockets with_sockets].
  - rewrite nth_error_replace_nth.
    destruct (s =? j)%nat eqn:Q; [| reflexivity].
    apply Nat.eqb_eq in Q. subst j. rewrite E. reflexivity.
  - destruct (s =? j)%nat eqn:Q; [| reflexivity].
    apply Nat.eqb_eq in Q. subst j. rewrite E. reflexivity.
Qed.

Lemma socket_close_returns (r : option nat) (w : World) :
  socket_close r w = (Ok tt, snd (socket_close r w)).
Proof. destruct r; reflexivity. Qed.

Lemma socket_close_refs (r : option nat) (w : World) :
  refs (snd (socket_close r w)) = refs w.
Proof.
  destruct r as [s |]; [| reflexivity].
  unfold socket_close, update_socket, modify, upd_browser. cbn.
  reflexivity.
Qed.

Lemma socket_close_sockets_ext (r : option nat) (w w' : World) :
  sockets (browser w) = sockets (browser w') ->
  sockets (browser (snd (socket_close r w)))
  = sockets (browser (snd (socket_close r w'))).
Proof.
  intros H. destruct r as [s |]; [| exact H].
  unfold socket_close, update_socket, modify, upd_browser. cbn [snd browser].
  rewrite H. destruct (nth_error (sockets (browser w')) s); cbn; [reflexivity | exact H].
Qed.

Lemma stopAudioStream_sockets (snap : State) (w : World) :
  sockets (browser (snd (stopAudioStream snap w))) = sockets (browser w).
Proof. unfold stopAudioStream. destruct (audioStream snap); reflexivity. Qed.

Section LeavingThePage.

Variable JSON_parse : string -> option JSON.
Variable JSON_stringify : JSON -> string.

Lemma sockets_after_unmount (snap : State) (w : World) :
  lifecycle w = Mounted snap ->
  sockets (browser (step JSON_parse JSON_stringify w Unmount))
  = sockets (browser (snd (socket_close (audioSocketRef (refs w))
                             (snd (socket_close (socketRef (refs w)) w))))).
Proof.
  intros L. cbn [step]. rewrite L.
  unfold exec, mountCleanup, bind at 1, modify at 1. cbn [fst snd].
  set (w0 := upd_refs _ _).
  unfold bind at 1, gets at 1. cbn [fst snd].
  unfold bind at 1. rewrite (socket_close_returns (socketRef (refs w0)) w0).
  unfold bind at 1, gets at 1. cbn [fst snd].
  unfold bind at 1.
  rewrite (socket_close_returns _ (snd (socket_close (socketRef (refs w0)) w0))).
  rewrite stopAudioStream_sockets, socket_close_refs.
  change (socketRef (refs w0)) with (socketRef (refs w)).
  change (audioSocketRef (refs w0)) with (audioSocketRef (refs w)).
  apply socket_close_sockets_ext, socket_close_sockets_ext. reflexivity.
Qed.

(** X16.  Leaving the page closes the two sockets the refs hold: after the
    cleanup each of them is closing or closed, whatever state it was in. *)
Theorem unmount_closes_current_sockets (snap : State) (w : World) (s : nat)
  (sock : WebSocket) :
  lifecycle w = Mounted snap ->
  socketRef (refs w) = Some s \/ audioSocketRef (refs w) = Some s ->
  nth_error (sockets (browser (step JSON_parse JSON_stringify w Unmount))) s = Some sock ->
  closed_or_closing sock.
Proof.
  intros L Href. rewrite (sockets_after_unmount snap w L).
  rewrite nth_error_after_socket_close.
  assert (C : forall x : WebSocket,
             closed_or_closing match readyState x with
                               | CONNECTING | OPEN => with_readyState CLOSING x
                               | CLOSING | CLOSED => x
                               end).
  { intros x. unfold closed_or_closing. destruct (readyState x) eqn:E; cbn; auto. }
  assert (C2 : forall x : WebSocket, closed_or_closing x ->
             closed_or_closing match readyState x with
                               | CONNECTING | OPEN => with_readyState CLOSING x
                               | CLOSING | CLOSED => x
                               end).
  { intros x [E | E]; rewrite E; [left | right]; exact E. }
  destruct (audioSocketRef (refs w)) as [a |] eqn:Ha.
  - destruct (a =? s)%nat eqn:Q.
    + destruct (nth_error _ s) as [x |]; cbn [option_map]; intros H; [| discriminate H].
      injection H as <-. apply C.
    + rewrite nth_error_after_socket_close.
      destruct Href as [Hs | Hs]; [| injection Hs as ->; rewrite Nat.eqb_refl in Q;
                                      discriminate Q].
      rewrite Hs, Nat.eqb_refl.
      destruct (nth_error _ s) as [x |]; cbn [option_map]; intros H; [| discriminate H].
      injection H as <-. apply C.
  - rewrite nth_error_after_socket_close.
    destruct Href as [Hs | Hs]; [| discriminate Hs].
    rewrite Hs, Nat.eqb_refl.
    destruct (nth_error _ s) as [x |]; cbn [option_map]; intros H; [| discriminate H].
    injection H as <-. apply C.
Qed.

End LeavingThePage.

(** ** A socket opens *)

Lemma sockets_wired_refl (w : World) : sockets_wired w w.
Proof. intros H; exact H. Qed.

Lemma sockets_wired_trans (w1 w2 w3 : World) :
  sockets_wired w1 w2 -> sockets_wired w2 w3 -> sockets_wired w1 w3.
Proof. unfold sockets_wired. auto. Qed.

Lemma update_socket_wired (s : nat) (f : WebSocket -> WebSocket) :
  (forall sock, onopen_wired sock -> onopen_wired (f sock)) ->
  preserves sockets_wired (update_socket s f).
Proof.
  intros Hf w Hs. unfold update_socket, modify, upd_browser. cbn.
  destruct (nth_error (sockets (browser w)) s) as [sock |] eqn:E; cbn; [| exact Hs].
  apply Forall_replace_nth; [exact Hs |].
  apply Hf. rewrite Forall_forall in Hs. apply Hs. eapply nth_error_In; eassumption.
Qed.

Lemma new_WebSocket_wired (u : string) : preserves sockets_wired (new_WebSocket u).
Proof.
  intros w Hs. cbn. apply Forall_app. split; [exact Hs |].
  apply Forall_cons; [exact I | apply Forall_nil].
Qed.

Ltac wired_leaf :=
  lazymatch goal with
  | |- preserves _ (update_socket _ _) =>
      apply update_socket_wired; intros ?sock;
      first [ exact (fun H => H) | intros _; exact I
            | destruct (readyState sock); exact (fun H => H) ]
  | |- preserves _ (new_WebSocket _) => apply new_WebSocket_wired
  | |- _ =>
      intros ?w ?H;
      first [ exact H
            | cbn;
              repeat match goal with
                | |- context [nth_error ?l ?i] => destruct (nth_error l i)
                end;
              exact H ]
  end.

Ltac wired_frames :=
  open_component; frames sockets_wired_refl sockets_wired_trans; wired_leaf.

Section SocketOpens.

Variable JSON_parse : string -> option JSON.
Variable JSON_stringify : JSON -> string.

Lemma reachable_sockets_wired (protocol host : string) (clk : nat -> Z)
  (trace : list Event) :
  Forall onopen_wired
    (sockets (browser (run JSON_parse JSON_stringify trace
                         (initialWorld protocol host clk)))).
Proof.
  apply (run_preserves JSON_parse JSON_stringify sockets_wired
           sockets_wired_refl sockets_wired_trans);
    intros; try solve [wired_frames].
  - intros H. exact H.
  - apply Forall_nil.
Qed.

(** X17.  On every page the program can reach, also one loaded over https,
    the opening of a connecting socket that has an onopen handler sets the
    status to connected, resets the reconnect counter to zero and shows one
    toast, which reads (HTTP): the handler is a closure of the first
    render, which saw [isSecure = false]. *)
Theorem open_toast_says_http (protocol host : string) (clk : nat -> Z)
  (trace : list Event) (s : nat) (sock : WebSocket) :
  let w := run JSON_parse JSON_stringify trace (initialWorld protocol host clk) in
  nth_error (sockets (browser w)) s = Some sock ->
  readyState sock = CONNECTING ->
  onopen sock <> None ->
  let w' := step JSON_parse JSON_stringify w (SocketOpen s) in
  connectionStatus (state w') = connected
  /\ reconnectAttemptsRef (refs w') = 0
  /\ toasts (output w') = toasts (output w) ++ [connected_toast false]
  /\ option_map readyState (nth_error (sockets (browser w')) s) = Some OPEN.
Proof.
  intros w Hs Hc Ho w'.
  assert (Hw : first_render_only host w).
  { apply run_first_render_only. cbn. repeat split. }
  pose proof (socket_of_world_first_render host w s sock Hw Hs) as [Hopen _].
  pose proof (reachable_sockets_wired protocol host clk trace) as Hwired.
  fold w in Hwired. rewrite Forall_forall in Hwired.
  specialize (Hwired sock (nth_error_In _ _ Hs)).
  unfold onopen_wired in Hwired.
  destruct (onopen sock) as [[snap | snap | snap | snap | snap] |] eqn:E;
    try contradiction.
  cbn in Hopen. subst snap.
  subst w'. cbn [step]. rewrite Hs, Hc, E.
  unfold exec, bind at 1, update_socket at 1, modify at 1. cbn [fst snd].
  cbn [call_handler onopen_handler]. unfold upd_browser. rewrite Hs.
  cbn. rewrite Hs. cbn. rewrite nth_error_replace_nth, Nat.eqb_refl, Hs. cbn.
  repeat split.
Qed.

End SocketOpens.

(** ** What is rendered *)

(** X18.  The badge tells the status and the security flag apart: two
    renders show the same badge only if they agree on both. *)
Theorem badge_tells_status_and_security (a b : State) :
  getConnectionStatusBadge a = getConnectionStatusBadge b ->
  connectionStatus a = connectionStatus b /\ isSecure a = isSecure b.
Proof.
  unfold getConnectionStatusBadge.
  destruct (connectionStatus a), (isSecure a), (connectionStatus b), (isSecure b);
    cbn; intros H; first [ split; reflexivity | discriminate H ].
Qed.

Lemma digits_dash_free (d : Decimal.uint) :
  dash_free (NilEmpty.string_of_uint d) = true.
Proof. induction d; cbn; auto. Qed.

Lemma to_uint_not_Nil (n : nat) : Nat.to_uint n <> Decimal.Nil.
Proof.
  rewrite <- (DecimalNat.Unsigned.of_to n) at 1.
  rewrite DecimalNat.Unsigned.to_of. unfold Decimal.unorm.
  destruct (Decimal.nzhead (Nat.to_uint n)); discriminate.
Qed.

Lemma index_dash_free (n : nat) :
  dash_free (NilZero.string_of_uint (Nat.to_uint n)) = true.
Proof.
  unfold NilZero.string_of_uint.
  destruct (Nat.to_uint n) eqn:E; try reflexivity;
    rewrite <- E; apply digits_dash_free.
Qed.

Lemma index_string_inj (i j : nat) :
  NilZero.string_of_uint (Nat.to_uint i) = NilZero.string_of_uint (Nat.to_uint j) -> i = j.
Proof.
  intros H. apply DecimalNat.Unsigned.to_uint_inj.
  apply (f_equal NilZero.uint_of_string) in H.
  rewrite !NilZero.usu in H by apply to_uint_not_Nil.
  injection H as H. exact H.
Qed.

(** Two dash-free strings followed by a dash and anything are equal as
    soon as the whole strings are. *)
Lemma dash_separates (a b x y : string) :
  dash_free a = true -> dash_free b = true ->
  (a ++ "-" ++ x)%string = (b ++ "-" ++ y)%string -> a = b.
Proof.
  revert b. induction a as [| c a IH]; intros [| c' b] Ha Hb H; cbn in *.
  - reflexivity.
  - injection H as Hc _. subst c'. cbn in Hb. discriminate Hb.
  - injection H as Hc _. subst c. cbn in Ha. discriminate Ha.
  - injection H as Hc H. subst c'.
    apply andb_prop in Ha, Hb. f_equal. apply IH; tauto.
Qed.

Lemma row_keys_indices (show : Z -> string) (index : nat) (l : list Transcript)
  (k : string) :
  In k (row_keys show index l) ->
  exists j t, index <= j
    /\ k = (NilZero.string_of_uint (Nat.to_uint j) ++ "-" ++ show t)%string.
Proof.
  revert index. induction l as [| transcript rest IH]; intros index H; cbn in H.
  - contradiction.
  - destruct H as [<- | H].
    + exists index, (timestamp transcript). split; [lia | reflexivity].
    + destruct (IH _ H) as [j [t [L E]]]. exists j, t. split; [lia | exact E].
Qed.

(** X19.  The keys of the rendered rows are pairwise different, whatever
    the timestamps are (all records of one message carry the same one) and
    however a timestamp prints. *)
Theorem row_keys_distinct (show : Z -> string) (index : nat) (l : list Transcript) :
  NoDup (row_keys show index l).
Proof.
  revert index. induction l as [| transcript rest IH]; intros index; cbn.
  - constructor.
  - constructor; [| apply IH].
    intros H. apply row_keys_indices in H. destruct H as [j [t [L E]]].
    apply dash_separates in E; try apply index_dash_free.
    apply index_string_inj in E. lia.
Qed.

(** ** Sample runs of the further properties *)

(** Three failed attempts with polling started, then a late reconnect. *)
Lemma reconnect_attempts_bounded_witness :
  reconnectAttemptsRef (refs (sample_page "http:")) <= maxReconnectAttempts
  /\ reconnectAttemptsRef
       (refs (sample_run (live_again_while_polling ++ [SocketClose 6; SocketClose 7])
                (sample_page "http:")))
     <= maxReconnectAttempts.
Proof.
  assert (H : reconnectAttemptsRef (refs (sample_page "http:")) <= maxReconnectAttempts).
  { unfold maxReconnectAttempts. cbn. lia. }
  split; [exact H |].
  exact (reconnect_attempts_bounded JSONText.parse JSONText.stringify
           (live_again_while_polling ++ [SocketClose 6; SocketClose 7])
           (sample_page "http:") H).
Defined.


(** The control message of the record button, before any socket exists. *)
Lemma sendMessage_against_endpoint_witness :
  primary_open (sample_page "http:") = false
  /\ toasts (output (snd (sendMessage JSONText.stringify "START_RECORDING"
               (Ok (response (send_message_route_POST JSONText.parse
                      (Some (JSONText.stringify
                               (JObject [("message", JString "START_RECORDING")]))))))
               (sample_page "http:"))))
     = [].
Proof.
  split; [reflexivity |].
  destruct (sendMessage_against_endpoint JSONText.parse JSONText.stringify
              "START_RECORDING" (JObject [("message", JString "START_RECORDING")])
              (sample_page "http:"))
    as [_ [_ [T _]]];
    [reflexivity | vm_compute; reflexivity | reflexivity | exact T].
Defined.

(** A tick while the backend is down. *)
Lemma poll_failure_is_shown_witness :
  connectionStatus initialState <> connected
  /\ toasts (output (snd (poll JSONText.parse JSONText.stringify initialState
                            (Throw (Error "Failed to fetch")) (sample_page "http:"))))
     = [polling_error_toast].
Proof.
  assert (H : connectionStatus initialState <> connected) by (cbn; discriminate).
  split; [exact H |].
  destruct (poll_failure_is_shown JSONText.parse JSONText.stringify initialState
              (Throw (Error "Failed to fetch")) (sample_page "http:") H)
    as [_ [T _]].
  exact T.
Defined.


(** The user selects the RTSP input, types an address and starts the
    stream while the socket is still connecting. *)
Lemma typed_url_is_streamed_witness :
  is_mounted (sample_run [Mount; SelectInput "rtsp"] (sample_page "http:")) = true
  /\ streamUrl (state (sample_run [ChangeStreamUrl "rtsp://camera/1";
                                  ClickStartStreaming (Throw (Error "Failed to fetch"))]
                         (sample_run [Mount; SelectInput "rtsp"] (sample_page "http:"))))
     = "rtsp://camera/1".
Proof.
  split; [reflexivity |].
  destruct (typed_url_is_streamed JSONText.parse JSONText.stringify "rtsp://camera/1"
              (Throw (Error "Failed to fetch"))
              (sample_run [Mount; SelectInput "rtsp"] (sample_page "http:")))
    as [U _];
    [reflexivity | reflexivity | discriminate | exact U].
Defined.

(** Two clicks on the record button of the mounted page. *)
Lemma record_then_stop_witness :
  isRecording (state (sample_run [Mount] (sample_page "http:"))) = false
  /\ streams (browser (sample_run [ClickRecord (Ok tt) (Throw (Error "Failed to fetch"));
                                   ClickRecord (Ok tt) (Throw (Error "Failed to fetch"))]
                         (sample_run [Mount] (sample_page "http:"))))
     = [Ended].
Proof.
  split; [reflexivity |].
  destruct (record_then_stop JSONText.parse JSONText.stringify
              (Throw (Error "Failed to fetch")) (Throw (Error "Failed to fetch")) (Ok tt)
              (sample_run [Mount] (sample_page "http:")))
    as [_ [_ [S _]]];
    [reflexivity | reflexivity | reflexivity | exact S].
Defined.

(** The page is left while its primary socket is open. *)
Lemma unmount_closes_current_sockets_witness :
  socketRef (refs (sample_run [Mount; SocketOpen 0] (sample_page "http:"))) = Some 0
  /\ closed_or_closing
       (with_readyState CLOSING (primary_socket initialState "example.com")).
Proof.
  split; [reflexivity |].
  apply (unmount_closes_current_sockets JSONText.parse JSONText.stringify initialState
           (sample_run [Mount; SocketOpen 0] (sample_page "http:")) 0
           (with_readyState CLOSING (primary_socket initialState "example.com"))).
  - reflexivity.
  - left. reflexivity.
  - vm_compute. reflexivity.
Defined.

(** The primary socket of a page loaded over https opens. *)
Lemma open_toast_says_http_witness :
  isSecure (state (sample_run [Mount] (sample_page "https:"))) = true
  /\ toasts (output (sample_run [Mount; SocketOpen 0] (sample_page "https:")))
     = [connected_toast false].
Proof.
  split; [reflexivity |].
  destruct (open_toast_says_http JSONText.parse JSONText.stringify "https:" "example.com"
              (fun n => 1700000000000 + Z.of_nat n)%Z [Mount] 0
              (primary_socket initialState "example.com"))
    as [_ [_ [T _]]];
    [vm_compute; reflexivity | reflexivity | discriminate | exact T].
Defined.

(** Two renders that differ in the selected input show the same badge. *)
Lemma badge_tells_status_and_security_witness :
  connectionStatus initialState = connectionStatus (with_inputType "rtsp" initialState)
  /\ isSecure initialState = isSecure (with_inputType "rtsp" initialState).
Proof.
  apply (badge_tells_status_and_security initialState (with_inputType "rtsp" initialState)).
  reflexivity.
Defined.
